(** * Trip tracker API: the trip routes and their authorization contract

    A shallow embedding of [app/routes/trip_routes.js] and of the trip schema
    ([app/models/trip.js]).  Request bodies and stored documents are JSON
    values; a JS object is a finite map from property names to values.  The
    document store is a finite map from document ids to documents, and every
    handler is a function from a request and a store to a response and a
    store.  Promise chains are written in a state-and-error monad: a rejected
    promise is [Err], [.then] is bind, and [.catch(next)] turns the error
    into the response of the error handler. *)

From stdpp Require Import gmap strings list fin_maps pretty.

Open Scope string_scope.
Open Scope Z_scope.

(** ** JSON values *)

#[warnings="-register-all"]
Inductive JValue : Type :=
  | JNull : JValue
  | JBool : bool -> JValue
  | JNum : Z -> JValue
  | JStr : string -> JValue
  | JArr : list JValue -> JValue
  | JObj : gmap string JValue -> JValue.

(** A stored trip document: the schema paths [date], [country], [city],
    [description], [users], [owner] and the two timestamps are properties of
    the document. *)
Abbreviation Trip := (gmap string JValue).

(** The collection: document id to document. *)
Abbreviation Store := (gmap string (gmap string JValue)).

(** ** Errors and responses *)

Inductive Error : Type :=
  | NotFoundError
  | ForbiddenError
  | ValidationError
  | UnauthenticatedError
  | StorageError
  | TypeError
  | ParameterError.

#[global] Instance Error_eq_dec : EqDecision Error.
Proof. solve_decision. Defined.

Inductive Result (A : Type) : Type :=
  | Ok : A -> Result A
  | Err : Error -> Result A.

Arguments Ok {A} _.
Arguments Err {A} _.

Record Response : Type := mkResponse {
  status : Z;
  failure : option Error;
  json : option JValue
}.

(** Modelled from the spec: the error handler ([lib/error_handler.js]) is not
    part of the sources at hand.  Section 7 gives the status of each error:
    not found is 404, forbidden is 403, validation is 422, unauthenticated is
    401, and a storage failure or any other error is a generic 500. *)
Definition status_of (e : Error) : Z :=
  match e with
  | NotFoundError => 404
  | ForbiddenError => 403
  | ValidationError => 422
  | UnauthenticatedError => 401
  | StorageError => 500
  | TypeError => 500
  | ParameterError => 500
  end.

(** [next(err)]: the error handler answers with the status of the error. *)
Definition error_response (e : Error) : Response :=
  mkResponse (status_of e) (Some e) None.

(** [res.sendStatus(code)] *)
Definition sendStatus (code : Z) : Response := mkResponse code None None.

(** [res.status(code).json(v)] *)
Definition send_json (code : Z) (v : JValue) : Response :=
  mkResponse code None (Some v).

(** ** The promise monad: a store transformer that may reject *)

Definition M (A : Type) : Type := Store -> Result A * Store.

Definition ret {A} (a : A) : M A := fun st => (Ok a, st).

Definition bind {A B} (m : M A) (f : A -> M B) : M B :=
  fun st =>
    match m st with
    | (Ok a, st') => f a st'
    | (Err e, st') => (Err e, st')
    end.

(** A synchronous step inside a [.then] callback: returns or throws. *)
Definition lift {A} (r : Result A) : M A := fun st => (r, st).

(** A promise that is started but neither returned nor awaited: its effect on
    the store happens, its outcome is dropped. *)
Definition detached {A} (m : M A) : M unit :=
  fun st => (Ok tt, snd (m st)).

(** [.catch(next)]: a rejection becomes the error handler's response. *)
Definition catch_next (m : M Response) : Store -> Response * Store :=
  fun st =>
    match m st with
    | (Ok r, st') => (r, st')
    | (Err e, st') => (error_response e, st')
    end.

Notation "'do' x <- m ; k" := (bind m (fun x => k))
  (at level 10, x name, m at level 100, k at level 200).

(** ** The environment of one request

    What the document-store driver decides on its own: whether the read or
    the write of this request fails (and with which error), the id a new
    document is stored under, the time it stamps on a write, the ids of the
    documents of a batch, what the schema's cast makes of a value at a path
    where the model does not say, and what an update document outside the
    modelled operators does to the document it is applied to. *)
Record Env : Type := MkEnv {
  read_fault : option Error;
  write_fault : option Error;
  new_id : string;
  now : Z;
  batch_id : nat -> string;
  cast : string -> JValue -> option JValue;
  other_update : JValue -> gmap string JValue -> Result (gmap string JValue)
}.

(** The environment of the examples: the four decisions that vary, with a
    driver that numbers the documents of a batch after the new id, casts a
    value to itself and refuses the update documents it is asked about. *)
Definition mkEnv (r w : option Error) (i : string) (n : Z) : Env :=
  MkEnv r w i n (fun k => i +:+ "." +:+ pretty k)
    (fun _ v => Some v) (fun _ _ => Err StorageError).

(** ** Requests *)

Record Request : Type := mkRequest {
  user : string;               (* req.user.id, set by requireToken *)
  params_id : string;          (* req.params.id *)
  body : gmap string JValue    (* req.body *)
}.

(** ** Helpers of [lib/], as the routes use them *)

(** Modelled from the spec: [handle404] ([lib/custom_errors.js], the spec's
    [requireFound]) is not part of the sources at hand.  Given the outcome of
    a lookup by id it fails with [NotFoundError] when the document is absent
    and passes a found document through unchanged. *)
Definition handle404 (record : option Trip) : Result Trip :=
  match record with
  | None => Err NotFoundError
  | Some t => Ok t
  end.

(** The owner of a document, when it is a user id. *)
Definition owner_of (t : Trip) : option string :=
  match t !! "owner" with
  | Some (JStr o) => Some o
  | _ => None
  end.

(** Modelled from the spec: [requireOwnership] ([lib/custom_errors.js]) is not
    part of the sources at hand.  It fails with [ForbiddenError] unless the
    owner of the trip is the requester; it has no effect and leaves the trip
    as it is. *)
Definition requireOwnership (req : Request) (t : Trip) : Result unit :=
  if decide (owner_of t = Some (user req)) then Ok tt else Err ForbiddenError.

Definition is_blank (v : JValue) : bool :=
  match v with
  | JStr s => bool_decide (s = "")
  | _ => false
  end.

(** Modelled from the spec: the middleware [removeBlanks]
    ([lib/remove_blank_fields.js], the spec's [stripBlankFields]) is not part
    of the sources at hand.  It removes, recursively, every key whose value
    is the empty string; [null] and the falsy values that are not strings
    stay. *)
Fixpoint removeBlanks (v : JValue) : JValue :=
  match v with
  | JObj m =>
      JObj (omap (fun x => if is_blank x then None else Some (removeBlanks x)) m)
  | JArr l => JArr (removeBlanks <$> l)
  | _ => v
  end.

(** The middleware applied to the object [req.body]. *)
Definition removeBlanks_body (b : gmap string JValue) : gmap string JValue :=
  match removeBlanks (JObj b) with
  | JObj b' => b'
  | _ => b
  end.

(** ** Property access on [req.body.trip]

    [req.body.trip.owner = v] and [delete req.body.trip.owner] throw a
    [TypeError] when [req.body.trip] is [undefined] or [null].  On an object
    they set and remove the property.  The module is not in strict mode, so
    on a primitive both are dropped silently; a property put on an array does
    not show in the JSON value. *)
Definition set_trip_owner (b : gmap string JValue) (uid : string)
  : Result (gmap string JValue) :=
  match b !! "trip" with
  | None | Some JNull => Err TypeError
  | Some (JObj o) => Ok (<["trip" := JObj (<["owner" := JStr uid]> o)]> b)
  | Some _ => Ok b
  end.

Definition delete_trip_owner (b : gmap string JValue)
  : Result (gmap string JValue) :=
  match b !! "trip" with
  | None | Some JNull => Err TypeError
  | Some (JObj o) => Ok (<["trip" := JObj (delete "owner" o)]> b)
  | Some _ => Ok b
  end.

(** [req.body.trip] once the dereference above went through. *)
Definition body_trip (b : gmap string JValue) : JValue :=
  default JNull (b !! "trip").

(** ** The trip model: the operations of the document store the routes call

    A call that the driver fails leaves the store as it was. *)

Definition is_id (uid : string) (v : JValue) : bool :=
  match v with
  | JStr s => bool_decide (s = uid)
  | _ => false
  end.

(** How often a user id occurs in an array of ids. *)
Definition count_id (uid : string) (l : list JValue) : nat :=
  length (List.filter (is_id uid) l).

(** The attendees of a document, when [users] is an array. *)
Definition users_of (t : Trip) : option (list JValue) :=
  match t !! "users" with
  | Some (JArr l) => Some l
  | _ => None
  end.

(** [{ $addToSet: { users: uid } }]: appends the id unless the array holds it
    already; a missing path becomes a one-element array; the store refuses
    the operator on a value that is not an array. *)
Definition addToSet (path uid : string) (t : Trip) : Result Trip :=
  match t !! path with
  | None => Ok (<[path := JArr [JStr uid]]> t)
  | Some (JArr l) =>
      if existsb (is_id uid) l then Ok t
      else Ok (<[path := JArr (l ++ [JStr uid])]> t)
  | Some _ => Err StorageError
  end.

(** [{ $pull: { users: uid } }]: removes every occurrence of the id; a
    missing path is left missing; the store refuses the operator on a value
    that is not an array. *)
Definition pull (path uid : string) (t : Trip) : Result Trip :=
  match t !! path with
  | None => Ok t
  | Some (JArr l) =>
      Ok (<[path := JArr (List.filter (fun v => negb (is_id uid v)) l)]> t)
  | Some _ => Err StorageError
  end.

(** [owner] is [required: true] in the schema: absent or [null] fails
    validation. *)
Definition required_present (v : option JValue) : bool :=
  match v with
  | None | Some JNull => false
  | Some _ => true
  end.

(** [users] is an array path of the schema: a new document without it gets
    the empty array. *)
Definition with_defaults (attrs : Trip) : Trip :=
  match attrs !! "users" with
  | None => <["users" := JArr []]> attrs
  | Some _ => attrs
  end.

(** ** The schema

    The paths the schema declares.  The model is in strict mode, the
    default: a key that is no path of the schema is not stored. *)
Definition schema_paths : list string :=
  ["date"; "country"; "city"; "description"; "users"; "owner"].

(** The paths the driver keeps for itself: the id, the version key and the
    timestamps. *)
Definition reserved_paths : list string :=
  ["_id"; "__v"; "createdAt"; "updatedAt"].

(** A key that names an update operator, and a key that is a dotted path. *)
Definition is_operator (k : string) : bool :=
  match k with
  | String c _ => bool_decide (String c "" = "$")
  | EmptyString => false
  end.

Fixpoint is_dotted (k : string) : bool :=
  match k with
  | String c k' => bool_decide (String c "" = ".") || is_dotted k'
  | EmptyString => false
  end.

(** A key that is the plain name of a property a client may set. *)
Definition plain_key (k : string) : bool :=
  negb (is_operator k) && negb (is_dotted k) &&
  negb (bool_decide (k ∈ reserved_paths)).

Definition plain_patch (p : Trip) : bool :=
  bool_decide (map_Forall (fun k _ => plain_key k = true) p).

(** The properties an update document sets, when it is made of plain keys
    and of [$set] with plain keys: the driver reads the plain keys of the
    top level as [$set], and a key of the top level goes before the same key
    under [$set].  Nothing for any other update document. *)
Definition update_sets (v : JValue) : option Trip :=
  match v with
  | JObj p =>
      if plain_patch (delete "$set" p) then
        match p !! "$set" with
        | None => Some p
        | Some (JObj s) =>
            if plain_patch s then Some (delete "$set" p ∪ s) else None
        | Some _ => None
        end
      else None
  | _ => None
  end.

Definition is_str (v : JValue) : bool :=
  match v with
  | JStr _ => true
  | _ => false
  end.

(** What [Trip.create] resolves with: a document for an object, an array of
    documents for an array. *)
Inductive Created : Type :=
  | One : string -> Trip -> Created
  | Many : list (string * Trip) -> Created.

(** [trip.toObject()], with the id of the document. *)
Definition toObject (id : string) (t : Trip) : JValue :=
  JObj (<["_id" := JStr id]> t).

Section Routes.

Variable env : Env.

(** [timestamps: true]: every write of a document sets [updatedAt]. *)
Definition touch (t : Trip) : Trip := <["updatedAt" := JNum (now env)]> t.

(** [Trip.findById(id)]: absence is a value, not an error. *)
Definition findById (id : string) : M (option Trip) :=
  fun st =>
    match read_fault env with
    | Some e => (Err e, st)
    | None => (Ok (st !! id), st)
    end.

(** The schema's cast of a value at a path.  A string is its own cast at the
    string paths and, ids being strings, at [owner]; so is an array of
    strings at [users].  Everything else is the driver's to say. *)
Definition cast_value (k : string) (v : JValue) : option JValue :=
  match v with
  | JStr _ =>
      if bool_decide (k ∈ ["country"; "city"; "description"; "owner"])
      then Some v else cast env k v
  | JArr l =>
      if bool_decide (k = "users") && forallb is_str l
      then Some v else cast env k v
  | _ => cast env k v
  end.

(** The cast of the properties at the given paths; the other keys are
    dropped.  Fails when one cast fails. *)
Fixpoint cast_paths (ks : list string) (p : Trip) : option Trip :=
  match ks with
  | [] => Some ∅
  | k :: ks' =>
      match cast_paths ks' p with
      | None => None
      | Some acc =>
          match p !! k with
          | None => Some acc
          | Some v =>
              match cast_value k v with
              | None => None
              | Some w => Some (<[k := w]> acc)
              end
          end
      end
  end.

Definition cast_doc (p : Trip) : option Trip := cast_paths schema_paths p.

(** The properties a new document is built from: those of an object; none
    for [null] and for an array; a primitive is refused. *)
Definition attrs_of (v : JValue) : Result Trip :=
  match v with
  | JObj attrs => Ok attrs
  | JNull | JArr _ => Ok ∅
  | _ => Err ParameterError
  end.

(** [new Trip(v).save()] under the id [id]: builds the document from the
    paths of the schema, validates, then inserts. *)
Definition create_one (id : string) (v : JValue) : M (string * Trip) :=
  fun st =>
    match attrs_of v with
    | Err e => (Err e, st)
    | Ok attrs =>
        match cast_doc attrs with
        | None => (Err ValidationError, st)
        | Some s =>
            if required_present (s !! "owner") then
              match write_fault env with
              | Some e => (Err e, st)
              | None =>
                  match st !! id with
                  | Some _ => (Err StorageError, st)
                  | None =>
                      let doc :=
                        touch (<["createdAt" := JNum (now env)]> (with_defaults s)) in
                      (Ok (id, doc), <[id := doc]> st)
                  end
              end
            else (Err ValidationError, st)
        end
    end.

(** The elements of an array, each saved on its own: the first error, the
    documents that were saved, and the store with them. *)
Fixpoint create_each (i : nat) (vs : list JValue) (st : Store)
  : option Error * list (string * Trip) * Store :=
  match vs with
  | [] => (None, [], st)
  | v :: vs' =>
      match create_one (batch_id env i) v st with
      | (Ok c, st1) =>
          let '(e, cs, st2) := create_each (S i) vs' st1 in (e, c :: cs, st2)
      | (Err e1, st1) =>
          let '(_, cs, st2) := create_each (S i) vs' st1 in (Some e1, cs, st2)
      end
  end.

(** [Trip.create(v)]: one document for an object; for an array, a document
    for each element, rejecting with the first error after every element has
    been tried. *)
Definition create (v : JValue) : M Created :=
  fun st =>
    match v with
    | JArr vs =>
        match create_each 0 vs st with
        | (None, cs, st') => (Ok (Many cs), st')
        | (Some e, _, st') => (Err e, st')
        end
    | _ =>
        match create_one (new_id env) v st with
        | (Ok c, st') => (Ok (One c.1 c.2), st')
        | (Err e, st') => (Err e, st')
        end
    end.

(** [trip.updateOne(v)] on the document of id [id]: one write.  An update
    document of plain keys and [$set] sets the paths of the schema it names,
    cast, and leaves the others; what any other update document does to the
    document is the driver's to say. *)
Definition updateOne (id : string) (v : JValue) : M unit :=
  fun st =>
    match update_sets v with
    | Some sets =>
        match cast_doc sets with
        | None => (Err ValidationError, st)
        | Some s =>
            match write_fault env with
            | Some e => (Err e, st)
            | None => (Ok tt, alter (fun t => touch (s ∪ t)) id st)
            end
        end
    | None =>
        match write_fault env with
        | Some e => (Err e, st)
        | None =>
            match st !! id with
            | None => (Ok tt, st)
            | Some t =>
                match other_update env v t with
                | Err e => (Err e, st)
                | Ok t' => (Ok tt, <[id := t']> st)
                end
            end
        end
    end.

(** [Trip.findByIdAndUpdate(id, update, { new: true })]: one atomic call that
    answers with the updated document, or with nothing when the id matches
    no document. *)
Definition findByIdAndUpdate (id : string) (update : Trip -> Result Trip)
  : M (option Trip) :=
  fun st =>
    match write_fault env with
    | Some e => (Err e, st)
    | None =>
        match st !! id with
        | None => (Ok None, st)
        | Some t =>
            match update t with
            | Err e => (Err e, st)
            | Ok t' => (Ok (Some (touch t')), <[id := touch t']> st)
            end
        end
    end.

(** [trip.deleteOne()] on the document of id [id]. *)
Definition deleteOne (id : string) : M unit :=
  fun st =>
    match write_fault env with
    | Some e => (Err e, st)
    | None => (Ok tt, delete id st)
    end.

(** [Trip.find(filter)]: the documents the filter keeps, as objects. *)
Definition find (keep : Trip -> bool) : M (list JValue) :=
  fun st =>
    match read_fault env with
    | Some e => (Err e, st)
    | None =>
        (Ok ((fun kv => toObject kv.1 kv.2) <$>
               List.filter (fun kv => keep kv.2) (map_to_list st)), st)
    end.

(** ** The routes *)

(** GET /trips/owned *)
Definition get_trips_owned (req : Request) : Store -> Response * Store :=
  catch_next
    (do trips <- find (fun t => bool_decide (owner_of t = Some (user req)));
     ret (send_json 200 (JObj {[ "trips" := JArr trips ]}))).

(** GET /trips/openall and GET /trips *)
Definition get_trips (req : Request) : Store -> Response * Store :=
  catch_next
    (do trips <- find (fun _ => true);
     ret (send_json 200 (JObj {[ "trips" := JArr trips ]}))).

(** GET /trips/:id *)
Definition get_trip (req : Request) : Store -> Response * Store :=
  catch_next
    (do r <- findById (params_id req);
     do t <- lift (handle404 r);
     ret (send_json 200 (JObj {[ "trip" := toObject (params_id req) t ]}))).

(** [trip.toObject()] on what [Trip.create] resolved with: an array has no
    such method, and the call throws. *)
Definition created_object (c : Created) : Result JValue :=
  match c with
  | One id t => Ok (toObject id t)
  | Many _ => Err TypeError
  end.

(** POST /trips *)
Definition post_trips (req : Request) : Store -> Response * Store :=
  fun st =>
    match set_trip_owner (body req) (user req) with
    | Err e => (error_response e, st)
    | Ok b =>
        catch_next
          (do c <- create (body_trip b);
           do o <- lift (created_object c);
           ret (send_json 201 (JObj {[ "trip" := o ]}))) st
    end.

(** The change-set that PATCH /trips/:id hands to the store: the body after
    [removeBlanks], with [owner] deleted from its [trip]. *)
Definition patch_changes (req : Request) : Result JValue :=
  match delete_trip_owner (removeBlanks_body (body req)) with
  | Err e => Err e
  | Ok b => Ok (body_trip b)
  end.

(** PATCH /trips/:id *)
Definition patch_trip (req : Request) : Store -> Response * Store :=
  fun st =>
    match patch_changes req with
    | Err e => (error_response e, st)
    | Ok changes =>
        catch_next
          (do r <- findById (params_id req);
           do t <- lift (handle404 r);
           do _ <- lift (requireOwnership req t);
           do _ <- updateOne (params_id req) changes;
           ret (sendStatus 204)) st
    end.

(** PATCH /trips/rsvp/:id *)
Definition patch_rsvp (req : Request) : Store -> Response * Store :=
  catch_next
    (do r <- findByIdAndUpdate (params_id req) (addToSet "users" (user req));
     do _ <- lift (handle404 r);
     ret (sendStatus 204)).

(** PATCH /trips/unrsvp/:id *)
Definition patch_unrsvp (req : Request) : Store -> Response * Store :=
  catch_next
    (do r <- findByIdAndUpdate (params_id req) (pull "users" (user req));
     do _ <- lift (handle404 r);
     ret (sendStatus 204)).

(** DELETE /trips/:id.  The callback calls [trip.deleteOne()] and returns
    nothing: the promise of the deletion is not part of the chain. *)
Definition delete_trip (req : Request) : Store -> Response * Store :=
  catch_next
    (do r <- findById (params_id req);
     do t <- lift (handle404 r);
     do _ <- (do _ <- lift (requireOwnership req t);
              detached (deleteOne (params_id req)));
     ret (sendStatus 204)).

End Routes.

(** ** The router: which handler a request reaches

    The routes in the order [trip_routes.js] registers them.  A path is given
    by its segments.  The router is made with the defaults of Express: a
    literal segment matches whatever the case of its letters, and [:id]
    matches any one segment that is not empty and keeps it as it is. *)

Inductive Method : Type := GET | POST | PATCH | DELETE.

Record HttpRequest : Type := mkHttp {
  method : Method;
  path : list string;
  bearer : option string;        (* the user of the bearer token, if valid *)
  payload : gmap string JValue   (* the parsed body *)
}.

Definition lower_ascii (c : Ascii.ascii) : Ascii.ascii :=
  let n := Ascii.nat_of_ascii c in
  if ((65 <=? n) && (n <=? 90))%nat then Ascii.ascii_of_nat (n + 32) else c.

Fixpoint lower (s : string) : string :=
  match s with
  | EmptyString => EmptyString
  | String c s' => String (lower_ascii c) (lower s')
  end.

(** A literal segment of a route, written in lower case. *)
Definition seg (literal s : string) : bool := bool_decide (lower s = literal).

(** The answer of [passport.authenticate] to a request without a valid
    token: 401, and the handler is not run. *)
Definition unauthorized : Response := mkResponse 401 (Some UnauthenticatedError) None.

(** [requireToken], then the handler with [req.user] and [req.params.id]. *)
Definition requireToken (r : HttpRequest) (id : string)
    (handler : Request -> Store -> Response * Store)
  : Store -> Response * Store :=
  fun st =>
    match bearer r with
    | None => (unauthorized, st)
    | Some u => handler (mkRequest u id (payload r)) st
    end.

(** The first route that matches, or nothing. *)
Definition router (env : Env) (r : HttpRequest)
  : option (Store -> Response * Store) :=
  match method r, path r with
  | GET, [a; b] =>
      if seg "trips" a then
        if seg "owned" b then Some (requireToken r "" (get_trips_owned env))
        else if seg "openall" b then
          Some (get_trips env (mkRequest "" "" (payload r)))
        else if bool_decide (b = "") then None
        else Some (requireToken r b (get_trip env))
      else None
  | GET, [a] =>
      if seg "trips" a then Some (requireToken r "" (get_trips env)) else None
  | POST, [a] =>
      if seg "trips" a then Some (requireToken r "" (post_trips env)) else None
  | PATCH, [a; b] =>
      if seg "trips" a && negb (bool_decide (b = ""))
      then Some (requireToken r b (patch_trip env)) else None
  | PATCH, [a; b; c] =>
      if seg "trips" a && negb (bool_decide (c = "")) then
        if seg "rsvp" b then Some (requireToken r c (patch_rsvp env))
        else if seg "unrsvp" b then Some (requireToken r c (patch_unrsvp env))
        else None
      else None
  | DELETE, [a; b] =>
      if seg "trips" a && negb (bool_decide (b = ""))
      then Some (requireToken r b (delete_trip env)) else None
  | _, _ => None
  end.

(** ** Reading a stored trip *)

(** How often a user id occurs among the attendees of the trip stored under
    an id; zero when there is no such trip or it has no array of attendees. *)
Definition attendance (uid id : string) (st : Store) : nat :=
  count_id uid (default [] (st !! id ≫= users_of)).

(** The value of a property of the trip stored under an id. *)
Definition field (id k : string) (st : Store) : option JValue :=
  st !! id ≫= (.!! k).

(** ** Running examples: the scenario of the spec *)

Definition quiet (id : string) (t : Z) : Env := mkEnv None None id t.

Definition paris : Trip :=
  {[ "country" := JStr "FR"; "city" := JStr "Paris";
     "date" := JStr "2024-05-01T00:00:00.000Z" ]}.

Definition reqA (b : gmap string JValue) : Request := mkRequest "A" "t1" b.
Definition reqB (b : gmap string JValue) : Request := mkRequest "B" "t1" b.

(** A blank city and a description. *)
Definition edit : gmap string JValue :=
  {[ "trip" := JObj {[ "city" := JStr ""; "description" := JStr "Nice trip" ]} ]}.

(** The trip as the store holds it after A created it at time 1. *)
Definition paris_stored : Trip :=
  touch (quiet "t1" 1)
    (<["createdAt" := JNum 1]> (with_defaults (<["owner" := JStr "A"]> paris))).

(** A creates, B joins twice, A edits, B leaves, A deletes. *)
Definition store1 : Store :=
  (post_trips (quiet "t1" 1) (mkRequest "A" "" {[ "trip" := JObj paris ]}) ∅).2.
Definition store2 : Store := (patch_rsvp (quiet "" 2) (reqB ∅) store1).2.
Definition store3 : Store := (patch_rsvp (quiet "" 3) (reqB ∅) store2).2.
Definition store4 : Store := (patch_trip (quiet "" 4) (reqA edit) store3).2.
Definition store5 : Store := (patch_unrsvp (quiet "" 6) (reqB ∅) store4).2.
Definition store6 : Store := (delete_trip (quiet "" 7) (reqA ∅) store5).2.

(** A creates a trip whose attendees name B twice. *)
Definition store_dup : Store :=
  (post_trips (quiet "t1" 1)
     (mkRequest "A" "" {[ "trip" := JObj {[ "users" := JArr [JStr "B"; JStr "B"] ]} ]})
     ∅).2.

(** * Properties *)

(** ** The scenario *)

Example scenario_create :
  store1 = {[ "t1" := paris_stored ]} ∧
  store1 !! "t1" ≫= owner_of = Some "A" ∧ store1 !! "t1" ≫= users_of = Some [].
Proof. vm_compute. repeat split; reflexivity. Qed.

Example scenario_join_twice :
  store2 !! "t1" ≫= users_of = Some [JStr "B"] ∧
  store3 !! "t1" ≫= users_of = Some [JStr "B"].
Proof. vm_compute. split; reflexivity. Qed.

Example scenario_edit :
  (patch_trip (quiet "" 4) (reqA edit) store3).1 = sendStatus 204 ∧
  store4 !! "t1" ≫= (.!! "city") = Some (JStr "Paris") ∧
  store4 !! "t1" ≫= (.!! "description") = Some (JStr "Nice trip").
Proof. vm_compute. repeat split; reflexivity. Qed.

Example scenario_forbidden :
  patch_trip (quiet "" 5) (reqB edit) store4 = (error_response ForbiddenError, store4).
Proof. vm_compute. reflexivity. Qed.

Example scenario_leave_delete :
  store5 !! "t1" ≫= users_of = Some [] ∧
  (delete_trip (quiet "" 7) (reqA ∅) store5).1 = sendStatus 204 ∧
  (get_trip (quiet "" 8) (reqA ∅) store6).1 = error_response NotFoundError.
Proof. vm_compute. repeat split; reflexivity. Qed.


(** ** Lookups through the store's bookkeeping *)

Lemma touch_lookup_ne (env : Env) (t : Trip) (k : string) :
  k ≠ "updatedAt" → touch env t !! k = t !! k.
Proof. intros Hk. unfold touch. by rewrite lookup_insert_ne. Qed.

Lemma owner_of_touch (env : Env) (t : Trip) :
  owner_of (touch env t) = owner_of t.
Proof. unfold owner_of. by rewrite touch_lookup_ne. Qed.

Lemma users_of_touch (env : Env) (t : Trip) :
  users_of (touch env t) = users_of t.
Proof. unfold users_of. by rewrite touch_lookup_ne. Qed.

Lemma with_defaults_lookup_ne (t : Trip) (k : string) :
  k ≠ "users" → with_defaults t !! k = t !! k.
Proof.
  intros Hk. unfold with_defaults.
  destruct (t !! "users"); [done|]. by rewrite lookup_insert_ne.
Qed.

(** ** The routes, one case per outcome *)

Lemma post_trips_eq (env : Env) (req : Request) (st : Store) :
  post_trips env req st =
  match set_trip_owner (body req) (user req) with
  | Err e => (error_response e, st)
  | Ok b =>
      match create env (body_trip b) st with
      | (Ok (One id t), st') =>
          (send_json 201 (JObj {[ "trip" := toObject id t ]}), st')
      | (Ok (Many _), st') => (error_response TypeError, st')
      | (Err e, st') => (error_response e, st')
      end
  end.
Proof.
  unfold post_trips. destruct (set_trip_owner _ _); [|done].
  unfold catch_next, bind, ret, lift.
  by destruct (create _ _ _) as [[[id t|cs]|e] st'].
Qed.

Lemma patch_trip_eq (env : Env) (req : Request) (st : Store) :
  patch_trip env req st =
  match patch_changes req with
  | Err e => (error_response e, st)
  | Ok changes =>
      match read_fault env with
      | Some e => (error_response e, st)
      | None =>
          match st !! params_id req with
          | None => (error_response NotFoundError, st)
          | Some t =>
              if decide (owner_of t = Some (user req)) then
                match updateOne env (params_id req) changes st with
                | (Ok _, st') => (sendStatus 204, st')
                | (Err e, st') => (error_response e, st')
                end
              else (error_response ForbiddenError, st)
          end
      end
  end.
Proof.
  unfold patch_trip. destruct (patch_changes req) as [changes|e]; [|done].
  unfold catch_next, bind, ret, lift, findById, requireOwnership.
  destruct (read_fault env); [done|].
  destruct (st !! params_id req) as [t|]; [|done]. simpl.
  destruct (decide (owner_of t = Some (user req))); [|done].
  by destruct (updateOne _ _ _ _) as [[?|?] ?].
Qed.

Lemma delete_trip_eq (env : Env) (req : Request) (st : Store) :
  delete_trip env req st =
  match read_fault env with
  | Some e => (error_response e, st)
  | None =>
      match st !! params_id req with
      | None => (error_response NotFoundError, st)
      | Some t =>
          if decide (owner_of t = Some (user req)) then
            (sendStatus 204, (deleteOne env (params_id req) st).2)
          else (error_response ForbiddenError, st)
      end
  end.
Proof.
  unfold delete_trip, catch_next, bind, ret, lift, findById, requireOwnership,
    detached.
  destruct (read_fault env); [done|].
  destruct (st !! params_id req) as [t|]; [|done]. simpl.
  by destruct (decide (owner_of t = Some (user req))).
Qed.

(** What the change-set of an update is, when there is one. *)
Lemma patch_changes_obj (req : Request) (c : Trip) :
  patch_changes req = Ok (JObj c) →
  ∃ o, removeBlanks_body (body req) !! "trip" = Some (JObj o) ∧
       c = delete "owner" o.
Proof.
  unfold patch_changes, delete_trip_owner, body_trip.
  destruct (removeBlanks_body (body req) !! "trip") as [v|] eqn:Hv; [|done].
  destruct v; try done; try (rewrite Hv; simpl; congruence).
  rewrite lookup_insert_eq. simpl. intros [= <-]. eauto.
Qed.

(** ** The schema's cast *)

Lemma cast_paths_lookup (env : Env) (ks : list string) (p s : Trip) (k : string) :
  NoDup ks →
  cast_paths env ks p = Some s →
  s !! k = if bool_decide (k ∈ ks) then p !! k ≫= cast_value env k else None.
Proof.
  intros Hnd. revert s. induction ks as [|k0 ks IH]; simpl; intros s Hs.
  - injection Hs as <-. by rewrite lookup_empty.
  - apply NoDup_cons in Hnd as [Hk0 Hnd].
    destruct (cast_paths env ks p) as [acc|] eqn:Hacc; [|done].
    specialize (IH Hnd acc eq_refl).
    destruct (decide (k = k0)) as [->|Hne].
    + rewrite bool_decide_eq_true_2 by apply list_elem_of_here.
      rewrite bool_decide_eq_false_2 in IH by done.
      destruct (p !! k0) as [v|] eqn:Hv; simpl.
      * destruct (cast_value env k0 v) as [w|]; [|done].
        injection Hs as <-. by rewrite lookup_insert_eq.
      * by injection Hs as <-.
    + assert (bool_decide (k ∈ k0 :: ks) = bool_decide (k ∈ ks)) as ->.
      { apply bool_decide_ext. rewrite elem_of_cons.
        split; [by intros [?|?] | by right]. }
      destruct (p !! k0) as [v|]; simpl in Hs.
      * destruct (cast_value env k0 v) as [w|]; [|done].
        injection Hs as <-. by rewrite lookup_insert_ne.
      * by injection Hs as <-.
Qed.

Lemma schema_paths_NoDup : NoDup schema_paths.
Proof. unfold schema_paths. compute_done. Qed.

(** The document the cast builds: at a path of the schema the cast of the
    value given, and nothing at any other key. *)
Lemma cast_doc_lookup (env : Env) (p s : Trip) (k : string) :
  cast_doc env p = Some s →
  s !! k = if bool_decide (k ∈ schema_paths)
           then p !! k ≫= cast_value env k else None.
Proof. apply cast_paths_lookup, schema_paths_NoDup. Qed.

Lemma cast_doc_owner (env : Env) (p s : Trip) (uid : string) :
  cast_doc env p = Some s →
  p !! "owner" = Some (JStr uid) →
  s !! "owner" = Some (JStr uid).
Proof.
  intros Hs Hp. rewrite (cast_doc_lookup env p s "owner" Hs), Hp. reflexivity.
Qed.

(** ** Creation *)

Lemma create_one_ok (env : Env) (id : string) (v : JValue) (st st' : Store)
    (c : string * Trip) :
  create_one env id v st = (Ok c, st') →
  ∃ attrs s,
    attrs_of v = Ok attrs ∧ cast_doc env attrs = Some s ∧
    required_present (s !! "owner") = true ∧ st !! id = None ∧
    c = (id, touch env (<["createdAt" := JNum (now env)]> (with_defaults s))) ∧
    st' = <[id := c.2]> st.
Proof.
  unfold create_one. destruct (attrs_of v) as [attrs|] eqn:Hattrs; [|done].
  destruct (cast_doc env attrs) as [s|] eqn:Hs; [|done].
  destruct (required_present (s !! "owner")) eqn:Hreq; [|done].
  destruct (write_fault env); [done|].
  destruct (st !! id) eqn:Hid; [done|].
  intros [= <- <-]. exists attrs, s. repeat split; done.
Qed.

Lemma create_one_err (env : Env) (id : string) (v : JValue) (st st' : Store)
    (e : Error) :
  create_one env id v st = (Err e, st') → st' = st.
Proof.
  unfold create_one. destruct (attrs_of v); [|by intros [= _ <-]].
  destruct (cast_doc env _); [|by intros [= _ <-]].
  destruct (required_present _); [|by intros [= _ <-]].
  destruct (write_fault env); [by intros [= _ <-]|].
  destruct (st !! id); [by intros [= _ <-]|done].
Qed.

(** A save never touches a document that is stored. *)
Lemma create_one_keeps (env : Env) (id : string) (v : JValue) (st : Store)
    (id' : string) (t : Trip) :
  st !! id' = Some t → (create_one env id v st).2 !! id' = Some t.
Proof.
  intros Ht. destruct (create_one env id v st) as [[c|e] st'] eqn:Hrun.
  - apply create_one_ok in Hrun as (_ & _ & _ & _ & _ & Hfree & _ & ->).
    simpl. rewrite lookup_insert_ne; [done|]. intros <-. congruence.
  - apply create_one_err in Hrun as ->. done.
Qed.

Lemma create_each_keeps (env : Env) (vs : list JValue) (i : nat) (st : Store)
    (id' : string) (t : Trip) :
  st !! id' = Some t → (create_each env i vs st).2 !! id' = Some t.
Proof.
  revert i st. induction vs as [|v vs IH]; intros i st Ht; simpl; [done|].
  pose proof (create_one_keeps env (batch_id env i) v st id' t Ht) as H1.
  destruct (create_one env (batch_id env i) v st) as [[c|e1] st1]; simpl in H1.
  - specialize (IH (S i) st1 H1).
    by destruct (create_each env (S i) vs st1) as [[e cs] st2].
  - specialize (IH (S i) st1 H1).
    by destruct (create_each env (S i) vs st1) as [[e cs] st2].
Qed.

Lemma create_keeps (env : Env) (v : JValue) (st : Store)
    (id' : string) (t : Trip) :
  st !! id' = Some t → (create env v st).2 !! id' = Some t.
Proof.
  intros Ht.
  assert (Hone : ∀ v0,
    (match create_one env (new_id env) v0 st with
     | (Ok c, st') => (Ok (One c.1 c.2), st')
     | (Err e, st') => (Err e, st')
     end).2 !! id' = Some t).
  { intros v0. pose proof (create_one_keeps env (new_id env) v0 st id' t Ht).
    by destruct (create_one env (new_id env) v0 st) as [[c|e] st']. }
  unfold create. destruct v as [| | | |l|]; try apply Hone.
  pose proof (create_each_keeps env l 0%nat st id' t Ht) as H1.
  by destruct (create_each env 0 l st) as [[[e|] cs] st'].
Qed.

(** Every create request answered 201 has stored, under the new id, a trip
    whose owner is the requester. *)
Lemma post_trips_created_inv (env : Env) (req : Request) (st : Store) :
  status (post_trips env req st).1 = 201 →
  ∃ doc, (post_trips env req st).2 = <[new_id env := doc]> st ∧
         owner_of doc = Some (user req).
Proof.
  rewrite post_trips_eq. unfold set_trip_owner.
  destruct (body req !! "trip") as [v|] eqn:Hv; [|done].
  assert (Hprim : ∀ b, attrs_of (body_trip b) = Err ParameterError →
    status (match create env (body_trip b) st with
            | (Ok (One id t), st') =>
                (send_json 201 (JObj {[ "trip" := toObject id t ]}), st')
            | (Ok (Many _), st') => (error_response TypeError, st')
            | (Err e, st') => (error_response e, st')
            end).1 = 201 → False).
  { intros b Hb. unfold create, create_one. rewrite Hb.
    by destruct (body_trip b). }
  destruct v as [|b0|n|s0|l|o]; try done.
  - intros H. exfalso. apply (Hprim (body req)); [|done].
    unfold body_trip. by rewrite Hv.
  - intros H. exfalso. apply (Hprim (body req)); [|done].
    unfold body_trip. by rewrite Hv.
  - intros H. exfalso. apply (Hprim (body req)); [|done].
    unfold body_trip. by rewrite Hv.
  - unfold body_trip, create. rewrite Hv. simpl.
    destruct (create_each env 0 l st) as [[[e|] cs] st']; [|done].
    by destruct e.
  - unfold body_trip, create. rewrite lookup_insert_eq. simpl.
    destruct (create_one env (new_id env) _ st) as [[c|e] st'] eqn:Hrun;
      [|by destruct e].
    intros _. apply create_one_ok in Hrun
      as (attrs & s & [= <-] & Hs & _ & _ & -> & ->).
    simpl. eexists. split; [done|].
    rewrite owner_of_touch. unfold owner_of.
    rewrite lookup_insert_ne, with_defaults_lookup_ne by done.
    by rewrite (cast_doc_owner env _ s (user req) Hs (lookup_insert_eq _ _ _)).
Qed.

(** A create request whose body carries a trip object that the schema's cast
    accepts, on a store that accepts the write, is answered 201 with the new
    trip, and its owner is the requester whatever [owner] the object held. *)
Lemma post_trips_creates (env : Env) (req : Request) (st : Store) (o s : Trip) :
  body req !! "trip" = Some (JObj o) →
  cast_doc env (<["owner" := JStr (user req)]> o) = Some s →
  write_fault env = None →
  st !! new_id env = None →
  ∃ doc,
    post_trips env req st =
      (send_json 201 (JObj {[ "trip" := toObject (new_id env) doc ]}),
       <[new_id env := doc]> st) ∧
    owner_of doc = Some (user req).
Proof.
  intros Hbody Hs Hw Hfresh.
  pose proof (cast_doc_owner env _ s (user req) Hs (lookup_insert_eq _ _ _))
    as Hown.
  rewrite post_trips_eq. unfold set_trip_owner, body_trip, create, create_one.
  rewrite Hbody. simpl. rewrite lookup_insert_eq. simpl.
  rewrite Hs, Hown. simpl. rewrite Hw, Hfresh. simpl.
  eexists. split; [reflexivity|].
  rewrite owner_of_touch. unfold owner_of.
  rewrite lookup_insert_ne, with_defaults_lookup_ne by done.
  by rewrite Hown.
Qed.

(** C1.  The requester A posts a body whose [trip] is an array holding one
    object with owner B.  The assignment of the owner lands on the array,
    [Trip.create] saves the element as it is, and the call of [toObject] on
    the array it resolves with throws: the answer is the generic 500, and a
    trip whose owner is B, not A, is stored. *)
Theorem post_trips_array_keeps_client_owner :
  let env := quiet "t2" 9 in
  let req :=
    reqA {[ "trip" := JArr [JObj {[ "owner" := JStr "B"; "city" := JStr "X" ]}] ]} in
  user req = "A" ∧
  (post_trips env req store1).1 = error_response TypeError ∧
  (post_trips env req store1).2 !! batch_id env 0 ≫= owner_of = Some "B" ∧
  store1 !! batch_id env 0 = None.
Proof. vm_compute. repeat split; reflexivity. Qed.

(** ** Update: the owner stays *)

(** The store does write [owner] when the update document holds it: the
    route is what keeps it out. *)
Example updateOne_can_set_owner :
  (updateOne (quiet "" 9) "t1" (JObj {[ "owner" := JStr "B" ]}) store1).2
    !! "t1" ≫= owner_of = Some "B".
Proof. vm_compute. reflexivity. Qed.

(** The route takes the key [owner] off the top level of the change-set,
    and only there. *)
Lemma patch_changes_no_owner (req : Request) (c : Trip) :
  patch_changes req = Ok (JObj c) → c !! "owner" = None.
Proof.
  intros Hc. apply patch_changes_obj in Hc as (o & _ & ->).
  apply lookup_delete_eq.
Qed.

(** C4.  The owner A of the trip t1 sends an update whose trip object is
    [{ "$set": { "owner": "B" } }].  The route deletes the key [owner] of the
    top level only, the change-set reaches the store as it was sent, and the
    store reads [$set] as the operator: the answer is 204 and the owner of
    the stored trip is now B. *)
Theorem patch_trip_operator_sets_owner :
  let env := quiet "" 9 in
  let req :=
    reqA {[ "trip" := JObj {[ "$set" := JObj {[ "owner" := JStr "B" ]} ]} ]} in
  store1 !! "t1" ≫= owner_of = Some "A" ∧
  patch_changes req = Ok (JObj {[ "$set" := JObj {[ "owner" := JStr "B" ]} ]}) ∧
  (patch_trip env req store1).1 = sendStatus 204 ∧
  (patch_trip env req store1).2 !! "t1" ≫= owner_of = Some "B".
Proof. vm_compute. repeat split; reflexivity. Qed.

Example patch_trip_owner_stripped_silently :
  let out := patch_trip (quiet "" 9)
    (reqA {[ "trip" := JObj {[ "owner" := JStr "B"; "city" := JStr "Rome" ]} ]})
    store1 in
  out.1 = sendStatus 204 ∧ out.2 !! "t1" ≫= owner_of = Some "A" ∧
  out.2 !! "t1" ≫= (.!! "city") = Some (JStr "Rome").
Proof. vm_compute. repeat split; reflexivity. Qed.

(** ** Update and delete: existence first, then ownership, then the write *)

Lemma removeBlanks_body_trip (b : gmap string JValue) (o : Trip) :
  b !! "trip" = Some (JObj o) →
  removeBlanks_body b !! "trip" = Some (removeBlanks (JObj o)).
Proof.
  intros Hb. unfold removeBlanks_body. cbn [removeBlanks].
  by rewrite lookup_omap, Hb.
Qed.

Lemma patch_changes_of_trip (req : Request) (o : Trip) :
  body req !! "trip" = Some (JObj o) →
  ∃ c, patch_changes req = Ok (JObj c).
Proof.
  intros Hb. unfold patch_changes, delete_trip_owner, body_trip.
  rewrite (removeBlanks_body_trip _ _ Hb). simpl.
  rewrite lookup_insert_eq. simpl. eauto.
Qed.

(** C2.  When the lookup finds the target trip and its owner is not the
    requester, an update request (with a trip object in its body) and a
    delete request are both answered with [ForbiddenError], status 403, and
    the store is left as it was, whatever the store would have done with a
    write. *)
Theorem not_owner_is_forbidden
    (env : Env) (req : Request) (st : Store) (t : Trip) :
  read_fault env = None →
  st !! params_id req = Some t →
  owner_of t ≠ Some (user req) →
  (∀ o, body req !! "trip" = Some (JObj o) →
        patch_trip env req st = (error_response ForbiddenError, st)) ∧
  delete_trip env req st = (error_response ForbiddenError, st) ∧
  status (error_response ForbiddenError) = 403.
Proof.
  intros Hr Ht Ho. split; [|split; [|done]].
  - intros o Hb. rewrite patch_trip_eq.
    destruct (patch_changes_of_trip req o Hb) as [c ->].
    rewrite Hr, Ht. by destruct (decide (owner_of t = Some (user req))).
  - rewrite delete_trip_eq, Hr, Ht.
    by destruct (decide (owner_of t = Some (user req))).
Qed.

Lemma not_owner_is_forbidden_witness :
  patch_trip (quiet "" 5) (reqB edit) store1
  = (error_response ForbiddenError, store1) ∧
  delete_trip (quiet "" 5) (reqB edit) store1
  = (error_response ForbiddenError, store1).
Proof.
  destruct (not_owner_is_forbidden (quiet "" 5) (reqB edit) store1
              paris_stored)
    as (Hpatch & Hdelete & _).
  - reflexivity.
  - vm_compute. reflexivity.
  - vm_compute. discriminate.
  - split; [|exact Hdelete]. eapply Hpatch. reflexivity.
Defined.

(** C3.  When the lookup finds no trip under the target id, an update request
    (with a trip object in its body) and a delete request are both answered
    with [NotFoundError], status 404, for every requester: ownership is not
    looked at, and the store is left as it was. *)
Theorem missing_target_is_not_found
    (env : Env) (req : Request) (st : Store) :
  read_fault env = None →
  st !! params_id req = None →
  (∀ o, body req !! "trip" = Some (JObj o) →
        patch_trip env req st = (error_response NotFoundError, st)) ∧
  delete_trip env req st = (error_response NotFoundError, st) ∧
  status (error_response NotFoundError) = 404.
Proof.
  intros Hr Ht. split; [|split; [|done]].
  - intros o Hb. rewrite patch_trip_eq.
    destruct (patch_changes_of_trip req o Hb) as [c ->].
    by rewrite Hr, Ht.
  - by rewrite delete_trip_eq, Hr, Ht.
Qed.

Lemma missing_target_is_not_found_witness :
  patch_trip (quiet "" 5) (mkRequest "B" "nope" edit) store1
  = (error_response NotFoundError, store1) ∧
  delete_trip (quiet "" 5) (mkRequest "B" "nope" edit) store1
  = (error_response NotFoundError, store1).
Proof.
  destruct (missing_target_is_not_found (quiet "" 5)
              (mkRequest "B" "nope" edit) store1)
    as (Hpatch & Hdelete & _).
  - reflexivity.
  - vm_compute. reflexivity.
  - split; [|exact Hdelete]. eapply Hpatch. reflexivity.
Defined.

(** ** A body without a trip *)

(** C10.  When the body of a create or update request has no [trip] (the key
    is absent, or [null]), the handler throws a [TypeError] before it calls
    the store: the answer is the generic 500 and not a validation error, it
    does not depend on what the store would do, and the store is left as it
    was. *)
Theorem missing_trip_is_server_error
    (env : Env) (req : Request) (st : Store) :
  body req !! "trip" = None ∨ body req !! "trip" = Some JNull →
  post_trips env req st = (error_response TypeError, st) ∧
  patch_trip env req st = (error_response TypeError, st) ∧
  status (error_response TypeError) = 500 ∧
  failure (error_response TypeError) ≠ Some ValidationError.
Proof.
  intros Hb. split; [|split; [|done]].
  - rewrite post_trips_eq. unfold set_trip_owner.
    by destruct Hb as [-> | ->].
  - rewrite patch_trip_eq.
    unfold patch_changes, delete_trip_owner, removeBlanks_body.
    cbn [removeBlanks]. rewrite lookup_omap. by destruct Hb as [-> | ->].
Qed.

Lemma missing_trip_is_server_error_witness :
  post_trips (quiet "t2" 5) (reqA ∅) store1 = (error_response TypeError, store1) ∧
  patch_trip (quiet "t2" 5) (reqA ∅) store1 = (error_response TypeError, store1) ∧
  status (error_response TypeError) = 500 ∧
  failure (error_response TypeError) ≠ Some ValidationError.
Proof.
  apply (missing_trip_is_server_error (quiet "t2" 5) (reqA ∅) store1).
  left. reflexivity.
Defined.

(** ** Storage failures *)

(** A failed read is answered with the error of the store, on every route
    that reads first. *)
Lemma read_failure_propagates (env : Env) (req : Request) (st : Store) (e : Error) :
  read_fault env = Some e →
  get_trip env req st = (error_response e, st) ∧
  delete_trip env req st = (error_response e, st) ∧
  (∀ c, patch_changes req = Ok c →
        patch_trip env req st = (error_response e, st)).
Proof.
  intros Hr. repeat split.
  - unfold get_trip, catch_next, bind, findById. by rewrite Hr.
  - by rewrite delete_trip_eq, Hr.
  - intros c Hc. by rewrite patch_trip_eq, Hc, Hr.
Qed.

(** A failed write is answered with the error of the store on create, update,
    join and leave, once the schema's cast has accepted the values. *)
Lemma write_failure_propagates (env : Env) (req : Request) (st : Store) (e : Error) :
  write_fault env = Some e →
  patch_rsvp env req st = (error_response e, st) ∧
  patch_unrsvp env req st = (error_response e, st) ∧
  (∀ o s, body req !! "trip" = Some (JObj o) →
          cast_doc env (<["owner" := JStr (user req)]> o) = Some s →
          post_trips env req st = (error_response e, st)) ∧
  (∀ t c sets s, read_fault env = None → st !! params_id req = Some t →
          owner_of t = Some (user req) → patch_changes req = Ok c →
          update_sets c = Some sets → cast_doc env sets = Some s →
          patch_trip env req st = (error_response e, st)).
Proof.
  intros Hw. repeat split.
  - unfold patch_rsvp, catch_next, bind, findByIdAndUpdate. by rewrite Hw.
  - unfold patch_unrsvp, catch_next, bind, findByIdAndUpdate. by rewrite Hw.
  - intros o s Hb Hs. rewrite post_trips_eq.
    unfold set_trip_owner, body_trip, create, create_one.
    rewrite Hb. simpl. rewrite lookup_insert_eq. simpl. rewrite Hs.
    rewrite (cast_doc_owner env _ s (user req) Hs (lookup_insert_eq _ _ _)).
    simpl. by rewrite Hw.
  - intros t c sets s Hr Ht Ho Hc Hsets Hs. rewrite patch_trip_eq, Hc, Hr, Ht.
    destruct (decide (owner_of t = Some (user req))); [|done].
    unfold updateOne. by rewrite Hsets, Hs, Hw.
Qed.

(** On delete the failed write is not seen: the owner is answered 204 and the
    trip stays in the store. *)
Lemma delete_trip_write_failure (env : Env) (req : Request) (st : Store)
    (t : Trip) (e : Error) :
  read_fault env = None →
  write_fault env = Some e →
  st !! params_id req = Some t →
  owner_of t = Some (user req) →
  delete_trip env req st = (sendStatus 204, st).
Proof.
  intros Hr Hw Ht Ho. rewrite delete_trip_eq, Hr, Ht.
  destruct (decide (owner_of t = Some (user req))); [|done].
  unfold deleteOne. by rewrite Hw.
Qed.

(** C5.  The owner A deletes the trip t1 while the store fails the deletion
    write: the answer is 204, not the error of the store, and the trip is
    still stored.  The same failed write on the update route is answered with
    the error. *)
Theorem delete_trip_hides_write_failure :
  let env := mkEnv None (Some StorageError) "" 7 in
  delete_trip env (reqA ∅) store1 = (sendStatus 204, store1) ∧
  is_Some (store1 !! "t1") ∧
  patch_trip env (reqA edit) store1 = (error_response StorageError, store1).
Proof.
  simpl. split; [|split].
  - vm_compute. reflexivity.
  - vm_compute. eauto.
  - vm_compute. reflexivity.
Qed.

(** ** Join and leave *)

Lemma existsb_is_id_false (uid : string) (l : list JValue) :
  existsb (is_id uid) l = false ↔ count_id uid l = 0%nat.
Proof.
  unfold count_id. induction l as [|v l IH]; simpl; [done|].
  destruct (is_id uid v); simpl; [split; discriminate | exact IH].
Qed.

Lemma count_id_snoc (uid : string) (l : list JValue) :
  count_id uid (l ++ [JStr uid]) = S (count_id uid l).
Proof.
  unfold count_id. rewrite List.filter_app, length_app. simpl.
  rewrite bool_decide_eq_true_2 by done. simpl. lia.
Qed.

Lemma filter_other_ids (uid : string) (l : list JValue) :
  count_id uid l = 0%nat →
  List.filter (fun v => negb (is_id uid v)) l = l.
Proof.
  unfold count_id. induction l as [|v l IH]; simpl; [done|].
  destruct (is_id uid v); simpl; [discriminate|].
  intros H. by rewrite IH.
Qed.

Lemma count_id_pulled (uid : string) (l : list JValue) :
  count_id uid (List.filter (fun v => negb (is_id uid v)) l) = 0%nat.
Proof.
  unfold count_id. induction l as [|v l IH]; simpl; [done|].
  destruct (is_id uid v) eqn:Hv; simpl; [done|]. by rewrite Hv.
Qed.

Lemma patch_rsvp_eq (env : Env) (req : Request) (st : Store) :
  patch_rsvp env req st =
  match write_fault env with
  | Some e => (error_response e, st)
  | None =>
      match st !! params_id req with
      | None => (error_response NotFoundError, st)
      | Some t =>
          match addToSet "users" (user req) t with
          | Err e => (error_response e, st)
          | Ok t' => (sendStatus 204, <[params_id req := touch env t']> st)
          end
      end
  end.
Proof.
  unfold patch_rsvp, catch_next, bind, ret, lift, findByIdAndUpdate.
  destruct (write_fault env); [done|].
  destruct (st !! params_id req) as [t|]; [|done].
  by destruct (addToSet _ _ _).
Qed.

Lemma patch_unrsvp_eq (env : Env) (req : Request) (st : Store) :
  patch_unrsvp env req st =
  match write_fault env with
  | Some e => (error_response e, st)
  | None =>
      match st !! params_id req with
      | None => (error_response NotFoundError, st)
      | Some t =>
          match pull "users" (user req) t with
          | Err e => (error_response e, st)
          | Ok t' => (sendStatus 204, <[params_id req := touch env t']> st)
          end
      end
  end.
Proof.
  unfold patch_unrsvp, catch_next, bind, ret, lift, findByIdAndUpdate.
  destruct (write_fault env); [done|].
  destruct (st !! params_id req) as [t|]; [|done].
  by destruct (pull _ _ _).
Qed.

Lemma users_of_Some (t : Trip) (l : list JValue) :
  users_of t = Some l → t !! "users" = Some (JArr l).
Proof.
  unfold users_of. destruct (t !! "users") as [[]|]; try done. by intros [= ->].
Qed.

(** One join: the answer is 204 and the id occurs once more than before
    unless it was there, in which case the attendees are as before. *)
Lemma patch_rsvp_once (env : Env) (req : Request) (st : Store)
    (t : Trip) (l : list JValue) :
  write_fault env = None →
  st !! params_id req = Some t →
  users_of t = Some l →
  ∃ t',
    patch_rsvp env req st = (sendStatus 204, <[params_id req := t']> st) ∧
    users_of t' =
      Some (if existsb (is_id (user req)) l then l
            else (l ++ [JStr (user req)])%list).
Proof.
  intros Hw Ht Hl. rewrite patch_rsvp_eq, Hw, Ht. unfold addToSet.
  rewrite (users_of_Some _ _ Hl).
  destruct (existsb (is_id (user req)) l).
  - eexists. split; [done|]. by rewrite users_of_touch.
  - eexists. split; [done|]. rewrite users_of_touch. unfold users_of.
    by rewrite lookup_insert_eq.
Qed.

(** C6.  On a trip whose attendees hold the requester's id at most once (as
    in any duplicate-free attendee set), two joins by the same requester are
    both answered 204 and leave exactly one occurrence of the id; the second
    join leaves the attendees as the first left them, and a join by a user
    already present leaves them as they were. *)
Theorem rsvp_twice_one_occurrence
    (env1 env2 : Env) (req : Request) (st : Store) (t : Trip) (l : list JValue) :
  write_fault env1 = None →
  write_fault env2 = None →
  st !! params_id req = Some t →
  users_of t = Some l →
  (count_id (user req) l ≤ 1)%nat →
  ∃ t1 t2 l1,
    patch_rsvp env1 req st = (sendStatus 204, <[params_id req := t1]> st) ∧
    patch_rsvp env2 req (<[params_id req := t1]> st)
      = (sendStatus 204, <[params_id req := t2]> st) ∧
    users_of t1 = Some l1 ∧
    users_of t2 = Some l1 ∧
    count_id (user req) l1 = 1%nat ∧
    (count_id (user req) l = 1%nat → l1 = l).
Proof.
  intros Hw1 Hw2 Ht Hl Hcount.
  destruct (patch_rsvp_once env1 req st t l Hw1 Ht Hl) as (t1 & Hrun1 & Hl1).
  set (l1 := if existsb (is_id (user req)) l then l
             else (l ++ [JStr (user req)])%list) in *.
  assert (Hin : existsb (is_id (user req)) l1 = true).
  { unfold l1. destruct (existsb (is_id (user req)) l) eqn:Hex; [done|].
    rewrite existsb_app. simpl. rewrite bool_decide_eq_true_2 by done.
    by rewrite orb_true_r. }
  destruct (patch_rsvp_once env2 req (<[params_id req := t1]> st) t1 l1 Hw2)
    as (t2 & Hrun2 & Hl2); [apply lookup_insert_eq | done |].
  rewrite Hin in Hl2. rewrite insert_insert_eq in Hrun2.
  exists t1, t2, l1. repeat split; try done.
  - unfold l1. destruct (existsb (is_id (user req)) l) eqn:Hex.
    + destruct (count_id (user req) l) as [|[|n]] eqn:Hc; [|done|lia].
      apply existsb_is_id_false in Hc. congruence.
    + apply existsb_is_id_false in Hex. rewrite count_id_snoc. lia.
  - intros Hone. unfold l1.
    destruct (existsb (is_id (user req)) l) eqn:Hex; [done|].
    apply existsb_is_id_false in Hex. lia.
Qed.

Lemma rsvp_twice_one_occurrence_witness :
  ∃ t1 t2 l1,
    patch_rsvp (quiet "" 2) (reqB ∅) store1 = (sendStatus 204, <["t1" := t1]> store1) ∧
    patch_rsvp (quiet "" 3) (reqB ∅) (<["t1" := t1]> store1)
      = (sendStatus 204, <["t1" := t2]> store1) ∧
    users_of t1 = Some l1 ∧
    users_of t2 = Some l1 ∧
    count_id "B" l1 = 1%nat ∧
    (count_id "B" [] = 1%nat → l1 = []).
Proof.
  apply (rsvp_twice_one_occurrence (quiet "" 2) (quiet "" 3) (reqB ∅) store1
           paris_stored []).
  - reflexivity.
  - reflexivity.
  - vm_compute. reflexivity.
  - vm_compute. reflexivity.
  - vm_compute. lia.
Defined.

(** Without that bound the count is not brought down to one: a trip created
    with the same id twice among its attendees keeps both after two joins. *)
Example rsvp_keeps_earlier_duplicates :
  let st0 := (post_trips (quiet "t1" 1)
                (mkRequest "A" "" {[ "trip" := JObj {[ "users" := JArr [JStr "B"; JStr "B"] ]} ]})
                ∅).2 in
  let st1 := (patch_rsvp (quiet "" 2) (reqB ∅) st0).2 in
  let st2 := (patch_rsvp (quiet "" 3) (reqB ∅) st1).2 in
  st2 !! "t1" ≫= users_of = Some [JStr "B"; JStr "B"].
Proof. vm_compute. reflexivity. Qed.

(** C6 as stated fails on a trip that holds the id twice: on the trip that A
    created with B twice among its attendees, two joins of B are answered
    204 and leave two occurrences of B. *)
Lemma rsvp_twice_counterexample :
  ¬ (∀ (env1 env2 : Env) (req : Request) (st : Store) (t : Trip)
       (l : list JValue),
       write_fault env1 = None →
       write_fault env2 = None →
       st !! params_id req = Some t →
       users_of t = Some l →
       (patch_rsvp env1 req st).1 = sendStatus 204 ∧
       (patch_rsvp env2 req (patch_rsvp env1 req st).2).1 = sendStatus 204 ∧
       attendance (user req) (params_id req)
         (patch_rsvp env2 req (patch_rsvp env1 req st).2).2 = 1%nat).
Proof.
  intros H.
  destruct (H (quiet "" 2) (quiet "" 3) (reqB ∅) store_dup
              (default ∅ (store_dup !! "t1")) [JStr "B"; JStr "B"])
    as (_ & _ & Hcount).
  - reflexivity.
  - reflexivity.
  - vm_compute. reflexivity.
  - vm_compute. reflexivity.
  - vm_compute in Hcount. discriminate Hcount.
Qed.

(** C7.  On a trip whose attendees do not hold the requester's id, a leave is
    answered 204 and the attendees are as they were; so is every other
    property of the trip except [updatedAt]. *)
Theorem unrsvp_absent_is_noop
    (env : Env) (req : Request) (st : Store) (t : Trip) (l : list JValue) :
  write_fault env = None →
  st !! params_id req = Some t →
  users_of t = Some l →
  count_id (user req) l = 0%nat →
  ∃ t',
    patch_unrsvp env req st = (sendStatus 204, <[params_id req := t']> st) ∧
    users_of t' = Some l ∧
    (∀ k, k ≠ "updatedAt" → t' !! k = t !! k).
Proof.
  intros Hw Ht Hl Hcount. rewrite patch_unrsvp_eq, Hw, Ht. unfold pull.
  rewrite (users_of_Some _ _ Hl), (filter_other_ids _ _ Hcount).
  eexists. split; [done|]. split.
  - rewrite users_of_touch. unfold users_of. by rewrite lookup_insert_eq.
  - intros k Hk. rewrite touch_lookup_ne by done.
    rewrite lookup_insert. case_decide as Hu; [|done]. subst k.
    symmetry. by apply users_of_Some.
Qed.

Lemma unrsvp_absent_is_noop_witness :
  ∃ t',
    patch_unrsvp (quiet "" 2) (reqB ∅) store1 = (sendStatus 204, <["t1" := t']> store1) ∧
    users_of t' = Some [] ∧
    (∀ k, k ≠ "updatedAt" →
          t' !! k = paris_stored !! k).
Proof.
  apply (unrsvp_absent_is_noop (quiet "" 2) (reqB ∅) store1
           paris_stored []).
  - reflexivity.
  - vm_compute. reflexivity.
  - vm_compute. reflexivity.
  - reflexivity.
Defined.

(** ** Update: what the write touches *)

Lemma updatedAt_not_schema : "updatedAt" ∉ schema_paths.
Proof. unfold schema_paths. compute_done. Qed.

(** A change-set of plain keys holds no operator: the driver reads it as the
    properties to set. *)
Lemma update_sets_plain (c : Trip) :
  plain_patch c = true → update_sets (JObj c) = Some c.
Proof.
  intros Hplain. unfold update_sets.
  assert (Hset : c !! "$set" = None).
  { destruct (c !! "$set") as [v|] eqn:Hv; [|done].
    unfold plain_patch in Hplain. apply bool_decide_eq_true in Hplain.
    specialize (Hplain "$set" v Hv). discriminate Hplain. }
  by rewrite (delete_id _ _ Hset), Hplain, Hset.
Qed.

(** The store after [updateOne], in every outcome: as it was, or with the
    target altered. *)
Lemma updateOne_store (env : Env) (id : string) (v : JValue) (st : Store) :
  (updateOne env id v st).2 = st ∨
  ∃ f, (updateOne env id v st).2 = alter f id st.
Proof.
  unfold updateOne. destruct (update_sets v) as [sets|].
  - destruct (cast_doc env sets) as [s|]; [|by left].
    destruct (write_fault env); [by left|]. right. by eexists.
  - destruct (write_fault env); [by left|].
    destruct (st !! id) as [t|] eqn:Ht; [|by left].
    destruct (other_update env v t) as [t'|]; [|by left].
    right. exists (fun _ => t'). simpl. apply map_eq. intros j.
    rewrite lookup_insert, lookup_alter. case_decide; [|done]. by rewrite Ht.
Qed.

(** The same for an update document of plain keys and [$set]: the target is
    altered by the merge of the cast properties. *)
Lemma updateOne_store_sets (env : Env) (id : string) (v : JValue)
    (sets : Trip) (st : Store) :
  update_sets v = Some sets →
  (updateOne env id v st).2 = st ∨
  ∃ s, cast_doc env sets = Some s ∧
       (updateOne env id v st).2 = alter (fun t => touch env (s ∪ t)) id st.
Proof.
  intros Hsets. unfold updateOne. rewrite Hsets.
  destruct (cast_doc env sets) as [s|]; [|by left].
  destruct (write_fault env); [by left|]. right. by exists s.
Qed.

Lemma patch_trip_store (env : Env) (req : Request) (st : Store) :
  (patch_trip env req st).2 = st ∨
  ∃ t f, st !! params_id req = Some t ∧ owner_of t = Some (user req) ∧
         (patch_trip env req st).2 = alter f (params_id req) st.
Proof.
  rewrite patch_trip_eq. destruct (patch_changes req) as [c|]; [|by left].
  destruct (read_fault env); [by left|].
  destruct (st !! params_id req) as [t|] eqn:Ht; [|by left].
  destruct (decide (owner_of t = Some (user req))) as [Ho|]; [|by left].
  destruct (updateOne_store env (params_id req) c st) as [Hst | [f Hst]].
  - left. by destruct (updateOne _ _ _ _) as [[?|?] ?].
  - right. exists t, f. repeat split; [done|].
    by destruct (updateOne _ _ _ _) as [[?|?] ?].
Qed.

Lemma patch_trip_store_plain (env : Env) (req : Request) (st : Store) (c : Trip) :
  patch_changes req = Ok (JObj c) →
  plain_patch c = true →
  (patch_trip env req st).2 = st ∨
  ∃ s, cast_doc env c = Some s ∧
       (patch_trip env req st).2
       = alter (fun t => touch env (s ∪ t)) (params_id req) st.
Proof.
  intros Hc Hplain. rewrite patch_trip_eq, Hc.
  destruct (read_fault env); [by left|].
  destruct (st !! params_id req) as [t|]; [|by left].
  destruct (decide (owner_of t = Some (user req))); [|by left].
  destruct (updateOne_store_sets env (params_id req) (JObj c) c st
              (update_sets_plain c Hplain)) as [Hst | (s & Hs & Hst)].
  - left. by destruct (updateOne _ _ _ _) as [[?|?] ?].
  - right. exists s. split; [done|].
    by destruct (updateOne _ _ _ _) as [[?|?] ?].
Qed.

(** The store after an update of plain keys that was answered 204. *)
Lemma patch_trip_done_plain (env : Env) (req : Request) (st : Store) (c : Trip) :
  patch_changes req = Ok (JObj c) →
  plain_patch c = true →
  (patch_trip env req st).1 = sendStatus 204 →
  ∃ t s, st !! params_id req = Some t ∧ cast_doc env c = Some s ∧
         (patch_trip env req st).2
         = <[params_id req := touch env (s ∪ t)]> st.
Proof.
  intros Hc Hplain. rewrite patch_trip_eq, Hc.
  destruct (read_fault env) as [[]|]; try done.
  destruct (st !! params_id req) as [t|] eqn:Ht; [|done].
  destruct (decide (owner_of t = Some (user req))); [|done].
  unfold updateOne. rewrite (update_sets_plain c Hplain).
  destruct (cast_doc env c) as [s|] eqn:Hs; [|done].
  destruct (write_fault env) as [[]|]; try done.
  intros _. exists t, s. split; [done|]. split; [done|]. simpl.
  apply map_eq. intros j. rewrite lookup_alter, lookup_insert.
  case_decide; [|done]. by rewrite Ht.
Qed.

Lemma patch_trip_other_docs (env : Env) (req : Request) (st : Store)
    (id : string) :
  id ≠ params_id req →
  (patch_trip env req st).2 !! id = st !! id.
Proof.
  intros Hid.
  destruct (patch_trip_store env req st) as [-> | (t & f & _ & _ & ->)];
    [done|].
  by rewrite lookup_alter_ne.
Qed.

(** A property that the cast document does not hold keeps its value. *)
Lemma patch_trip_kept (env : Env) (req : Request) (st : Store)
    (c : Trip) (k : string) :
  patch_changes req = Ok (JObj c) →
  plain_patch c = true →
  c !! k = None ∨ k ∉ schema_paths →
  k ≠ "updatedAt" →
  field (params_id req) k (patch_trip env req st).2
  = field (params_id req) k st.
Proof.
  intros Hc Hplain Hk Hup. unfold field.
  destruct (patch_trip_store_plain env req st c Hc Hplain)
    as [-> | (s & Hs & ->)]; [done|].
  rewrite lookup_alter_eq. destruct (st !! params_id req) as [t|]; [|done].
  simpl. rewrite touch_lookup_ne by done. apply lookup_union_r.
  rewrite (cast_doc_lookup env c s k Hs). case_bool_decide as Hin; [|done].
  destruct Hk as [-> | Hout]; [done|]. by destruct Hout.
Qed.

(** With a change-set of plain keys the owner of the target stays: the
    route has taken [owner] off it. *)
Lemma patch_trip_plain_keeps_owner (env : Env) (req : Request) (st : Store)
    (c : Trip) :
  patch_changes req = Ok (JObj c) →
  plain_patch c = true →
  field (params_id req) "owner" (patch_trip env req st).2
  = field (params_id req) "owner" st.
Proof.
  intros Hc Hplain. apply (patch_trip_kept env req st c "owner" Hc Hplain);
    [|discriminate].
  left. by apply (patch_changes_no_owner req).
Qed.

(** A path of the schema that the change-set holds is stored with the cast
    of the value, once the update is answered 204. *)
Lemma patch_trip_applied (env : Env) (req : Request) (st : Store)
    (c : Trip) (k : string) (v : JValue) :
  patch_changes req = Ok (JObj c) →
  plain_patch c = true →
  (patch_trip env req st).1 = sendStatus 204 →
  c !! k = Some v →
  k ∈ schema_paths →
  field (params_id req) k (patch_trip env req st).2 = cast_value env k v ∧
  is_Some (cast_value env k v).
Proof.
  intros Hc Hplain H204 Hk Hin. unfold field.
  destruct (patch_trip_done_plain env req st c Hc Hplain H204)
    as (t & s & Ht & Hs & ->).
  rewrite lookup_insert_eq. simpl.
  assert (Hup : k ≠ "updatedAt").
  { intros ->. by apply updatedAt_not_schema in Hin. }
  rewrite touch_lookup_ne by done.
  pose proof (cast_doc_lookup env c s k Hs) as Hlook.
  rewrite bool_decide_eq_true_2, Hk in Hlook by done. simpl in Hlook.
  assert (Hsome : is_Some (cast_value env k v)).
  { clear Hlook. revert Hs. unfold cast_doc.
    generalize schema_paths_NoDup. revert Hin s.
    generalize schema_paths. intros ks. induction ks as [|k0 ks IH];
      intros Hin s Hnd Hs; [by apply elem_of_nil in Hin|].
    apply NoDup_cons in Hnd as [_ Hnd]. simpl in Hs.
    destruct (cast_paths env ks c) as [acc|] eqn:Hacc; [|done].
    apply elem_of_cons in Hin as [->|Hin]; [|by eapply IH].
    rewrite Hk in Hs. by destruct (cast_value env k0 v). }
  destruct Hsome as [w Hw]. rewrite Hw in Hlook |- *. split; [|by eexists].
  by apply lookup_union_Some_l.
Qed.

(** C9 as stated fails on [updatedAt]: the owner's update of the city alone
    moves the timestamp of the trip from 1 to 9.  It also fails, [updatedAt]
    apart, on a change-set with an operator: [city] is no key of
    [{ "$set": { "city": "Rome" } }], and the city of the trip changes. *)
Lemma patch_trip_frame_counterexample :
  ¬ (∀ (env : Env) (req : Request) (st : Store) (c : Trip) (k : string),
       patch_changes req = Ok (JObj c) →
       c !! k = None →
       (patch_trip env req st).2 !! params_id req ≫= (.!! k)
       = st !! params_id req ≫= (.!! k)) ∧
  ¬ (∀ (env : Env) (req : Request) (st : Store) (c : Trip) (k : string),
       patch_changes req = Ok (JObj c) →
       c !! k = None →
       k ≠ "updatedAt" →
       (patch_trip env req st).2 !! params_id req ≫= (.!! k)
       = st !! params_id req ≫= (.!! k)).
Proof.
  split.
  - intros H.
    specialize (H (quiet "" 9)
                  (reqA {[ "trip" := JObj {[ "city" := JStr "Rome" ]} ]})
                  store1 {[ "city" := JStr "Rome" ]} "updatedAt").
    vm_compute in H. specialize (H eq_refl eq_refl). discriminate H.
  - intros H.
    specialize (H (quiet "" 9)
                  (reqA {[ "trip" :=
                     JObj {[ "$set" := JObj {[ "city" := JStr "Rome" ]} ]} ]})
                  store1 {[ "$set" := JObj {[ "city" := JStr "Rome" ]} ]}
                  "city" eq_refl eq_refl).
    assert (Hne : "city" ≠ "updatedAt") by discriminate.
    specialize (H Hne). vm_compute in H. discriminate H.
Qed.

(** C9, amended.  An update changes no document other than its target.  When
    its change-set has only plain keys (no update operator, no dotted path,
    none of [_id], [__v], [createdAt], [updatedAt]), then in the target every
    property that is absent from the change-set, and every property that is
    no path of the schema, keeps its value, except [updatedAt]. *)
Theorem patch_trip_frame (env : Env) (req : Request) (st : Store) :
  (∀ id, id ≠ params_id req → (patch_trip env req st).2 !! id = st !! id) ∧
  (∀ c, patch_changes req = Ok (JObj c) →
        plain_patch c = true →
        (∀ k, c !! k = None → k ≠ "updatedAt" →
              (patch_trip env req st).2 !! params_id req ≫= (.!! k)
              = st !! params_id req ≫= (.!! k)) ∧
        (∀ k, k ∉ schema_paths → k ≠ "updatedAt" →
              (patch_trip env req st).2 !! params_id req ≫= (.!! k)
              = st !! params_id req ≫= (.!! k))).
Proof.
  split.
  - intros id Hid. by apply patch_trip_other_docs.
  - intros c Hc Hplain. split.
    + intros k Hk Hup.
      apply (patch_trip_kept env req st c k Hc Hplain); [by left|done].
    + intros k Hk Hup.
      apply (patch_trip_kept env req st c k Hc Hplain); [by right|done].
Qed.

Lemma patch_trip_frame_witness :
  (∀ id, id ≠ "t1" → (patch_trip (quiet "" 4) (reqA edit) store1).2 !! id = store1 !! id) ∧
  (∀ k, ({[ "description" := JStr "Nice trip" ]} : Trip) !! k = None →
        k ≠ "updatedAt" →
        (patch_trip (quiet "" 4) (reqA edit) store1).2 !! "t1" ≫= (.!! k)
        = store1 !! "t1" ≫= (.!! k)) ∧
  (∀ k, k ∉ schema_paths → k ≠ "updatedAt" →
        (patch_trip (quiet "" 4) (reqA edit) store1).2 !! "t1" ≫= (.!! k)
        = store1 !! "t1" ≫= (.!! k)).
Proof.
  destruct (patch_trip_frame (quiet "" 4) (reqA edit) store1) as [Hdocs Hframe].
  split; [exact Hdocs|].
  apply (Hframe {[ "description" := JStr "Nice trip" ]}).
  - vm_compute. reflexivity.
  - vm_compute. reflexivity.
Defined.

(** ** Update: blank fields *)

Lemma removeBlanks_obj_lookup (o : Trip) (k : string) :
  (omap (fun x => if is_blank x then None else Some (removeBlanks x)) o) !! k
  = match o !! k with
    | Some v => if is_blank v then None else Some (removeBlanks v)
    | None => None
    end.
Proof. rewrite lookup_omap. by destruct (o !! k). Qed.

(** The change-set of a request whose body carries a trip object. *)
Lemma patch_changes_trip (req : Request) (o : Trip) :
  body req !! "trip" = Some (JObj o) →
  patch_changes req =
  Ok (JObj (delete "owner"
       (omap (fun x => if is_blank x then None else Some (removeBlanks x)) o))).
Proof.
  intros Hb. unfold patch_changes, delete_trip_owner, body_trip.
  rewrite (removeBlanks_body_trip _ _ Hb). simpl.
  by rewrite lookup_insert_eq.
Qed.

(** C8 as stated fails on [owner]: the owner A submits the non-blank owner B,
    and the change-set is empty.  Its word on the stored value fails on a
    change-set with an operator: the city is submitted blank beside
    [{ "$set": { "city": "Rome" } }], and the stored city changes. *)
Lemma patch_trip_applies_counterexample :
  ¬ (∀ (req : Request) (o c : Trip) (k : string) (v : JValue),
       body req !! "trip" = Some (JObj o) →
       o !! k = Some v →
       is_blank v = false →
       patch_changes req = Ok (JObj c) →
       c !! k = Some (removeBlanks v)) ∧
  ¬ (∀ (env : Env) (req : Request) (st : Store) (o : Trip) (k : string),
       body req !! "trip" = Some (JObj o) →
       o !! k = Some (JStr "") →
       k ≠ "updatedAt" →
       (patch_trip env req st).2 !! params_id req ≫= (.!! k)
       = st !! params_id req ≫= (.!! k)).
Proof.
  split.
  - intros H.
    specialize (H (reqA {[ "trip" := JObj {[ "owner" := JStr "B" ]} ]})
                  {[ "owner" := JStr "B" ]} ∅ "owner" (JStr "B")
                  eq_refl eq_refl eq_refl).
    vm_compute in H. specialize (H eq_refl). discriminate H.
  - intros H.
    specialize (H (quiet "" 9)
                  (reqA {[ "trip" :=
                     JObj {[ "city" := JStr "";
                             "$set" := JObj {[ "city" := JStr "Rome" ]} ]} ]})
                  store1
                  {[ "city" := JStr "";
                     "$set" := JObj {[ "city" := JStr "Rome" ]} ]}
                  "city" eq_refl eq_refl).
    assert (Hne : "city" ≠ "updatedAt") by discriminate.
    specialize (H Hne). vm_compute in H. discriminate H.
Qed.

Example patch_trip_owner_not_applied :
  let out := patch_trip (quiet "" 9)
               (reqA {[ "trip" := JObj {[ "owner" := JStr "B" ]} ]}) store1 in
  out.1 = sendStatus 204 ∧ out.2 !! "t1" ≫= (.!! "owner") = Some (JStr "A").
Proof. vm_compute. split; reflexivity. Qed.

(** C8, amended.  For an update request whose body carries a trip object:
    every field submitted as the empty string is absent from the change-set
    handed to the store; every submitted field other than [owner] that is
    not the empty string is in the change-set, with the blank keys nested in
    it removed; [null], booleans and numbers, [false] and [0] among them, are
    in the change-set as they were submitted.  When the change-set has only
    plain keys (no update operator, no dotted path, none of [_id], [__v],
    [createdAt], [updatedAt]): the stored value of a field submitted blank
    stays ([updatedAt] apart), and once the update is answered 204 every
    non-blank submitted field other than [owner] that is a path of the
    schema is stored with the schema's cast of its value, which for a string
    at [country], [city] or [description] is the string itself. *)
Theorem patch_trip_blank_fields
    (env : Env) (req : Request) (st : Store) (o : Trip) :
  body req !! "trip" = Some (JObj o) →
  ∃ c,
    patch_changes req = Ok (JObj c) ∧
    (∀ k, o !! k = Some (JStr "") → c !! k = None) ∧
    (∀ k v, o !! k = Some v → is_blank v = false → k ≠ "owner" →
            c !! k = Some (removeBlanks v)) ∧
    (∀ k v, o !! k = Some v →
            v = JNull ∨ (∃ b, v = JBool b) ∨ (∃ n, v = JNum n) →
            k ≠ "owner" → c !! k = Some v) ∧
    (plain_patch c = true →
     ∀ k, o !! k = Some (JStr "") → k ≠ "updatedAt" →
          (patch_trip env req st).2 !! params_id req ≫= (.!! k)
          = st !! params_id req ≫= (.!! k)) ∧
    (plain_patch c = true →
     (patch_trip env req st).1 = sendStatus 204 →
     ∀ k v, o !! k = Some v → is_blank v = false →
            k ≠ "owner" → k ∈ schema_paths →
            (patch_trip env req st).2 !! params_id req ≫= (.!! k)
            = cast_value env k (removeBlanks v) ∧
            is_Some (cast_value env k (removeBlanks v))) ∧
    (plain_patch c = true →
     (patch_trip env req st).1 = sendStatus 204 →
     ∀ k s, o !! k = Some (JStr s) → s ≠ "" →
            k ∈ ["country"; "city"; "description"] →
            (patch_trip env req st).2 !! params_id req ≫= (.!! k)
            = Some (JStr s)).
Proof.
  intros Hb. pose proof (patch_changes_trip req o Hb) as Hc.
  eexists. split; [exact Hc|].
  set (c := delete "owner"
    (omap (fun x => if is_blank x then None else Some (removeBlanks x)) o))
    in *.
  assert (Hblank : ∀ k, o !! k = Some (JStr "") → c !! k = None).
  { intros k Hk. unfold c. rewrite lookup_delete. case_decide; [done|].
    by rewrite removeBlanks_obj_lookup, Hk. }
  assert (Hkept : ∀ k v, o !! k = Some v → is_blank v = false → k ≠ "owner" →
    c !! k = Some (removeBlanks v)).
  { intros k v Hk Hv Hown. unfold c. rewrite lookup_delete_ne by done.
    by rewrite removeBlanks_obj_lookup, Hk, Hv. }
  split; [exact Hblank|]. split; [exact Hkept|]. split; [|split; [|split]].
  - intros k v Hk Hv Hown.
    assert (is_blank v = false ∧ removeBlanks v = v) as [Hnb Hid].
    { destruct Hv as [-> | [[b ->] | [n ->]]]; done. }
    rewrite <- Hid. by apply Hkept.
  - intros Hplain k Hk Hup.
    apply (patch_trip_kept env req st c k Hc Hplain); [|done].
    left. by apply Hblank.
  - intros Hplain H204 k v Hk Hv Hown Hin.
    apply (patch_trip_applied env req st c k (removeBlanks v) Hc Hplain H204);
      [|done].
    by apply Hkept.
  - intros Hplain H204 k s Hk Hs Hin.
    assert (Hschema : k ∈ schema_paths).
    { revert Hin. unfold schema_paths. rewrite !elem_of_cons.
      intros [->|[->|[->|Hnil]]]; [by right; left | by right; right; left
        | by right; right; right; left | by apply elem_of_nil in Hnil]. }
    assert (Hown : k ≠ "owner").
    { intros ->. revert Hin. rewrite !elem_of_cons.
      intros [?|[?|[?|Hnil]]]; try done. by apply elem_of_nil in Hnil. }
    assert (Hnb : is_blank (JStr s) = false).
    { simpl. by apply bool_decide_eq_false_2. }
    destruct (patch_trip_applied env req st c k (JStr s) Hc Hplain H204)
      as [Hstored _]; [by apply (Hkept k (JStr s))|done|].
    unfold field in Hstored. rewrite Hstored. unfold cast_value.
    rewrite bool_decide_eq_true_2; [done|].
    revert Hin. rewrite !elem_of_cons.
    intros [->|[->|[->|Hnil]]]; [by left | by right; left
      | by right; right; left | by apply elem_of_nil in Hnil].
Qed.

Lemma patch_trip_blank_fields_witness :
  ∃ c,
    patch_changes (reqA edit) = Ok (JObj c) ∧
    c !! "city" = None ∧
    c !! "description" = Some (JStr "Nice trip") ∧
    (patch_trip (quiet "" 4) (reqA edit) store1).2 !! "t1" ≫= (.!! "city")
    = store1 !! "t1" ≫= (.!! "city") ∧
    (patch_trip (quiet "" 4) (reqA edit) store1).2 !! "t1" ≫= (.!! "description")
    = Some (JStr "Nice trip").
Proof.
  destruct (patch_trip_blank_fields (quiet "" 4) (reqA edit) store1
              {[ "city" := JStr ""; "description" := JStr "Nice trip" ]})
    as (c & Hc & Hblank & Hkept & _ & Hstay & _ & Hset).
  - reflexivity.
  - assert (Hplain : plain_patch c = true).
    { revert Hc. vm_compute. intros [= <-]. reflexivity. }
    exists c. split; [exact Hc|]. split; [|split; [|split]].
    + apply Hblank. reflexivity.
    + apply (Hkept "description" (JStr "Nice trip"));
        [reflexivity|reflexivity|discriminate].
    + apply (Hstay Hplain "city"); [reflexivity|discriminate].
    + apply (Hset Hplain); [vm_compute; reflexivity|reflexivity|discriminate|].
      rewrite !elem_of_cons. by right; right; left.
Defined.

(** * Further properties of the routes *)

(** ** The reading routes *)

Lemma find_elements (env : Env) (keep : Trip → bool) (st : Store) :
  read_fault env = None →
  ∃ l, find env keep st = (Ok l, st) ∧
       ∀ v, v ∈ l ↔
            ∃ id t, st !! id = Some t ∧ keep t = true ∧ v = toObject id t.
Proof.
  intros Hr. unfold find. rewrite Hr. eexists. split; [done|].
  intros v. rewrite list_elem_of_fmap. split.
  - intros ([id t] & -> & Hin). apply list_elem_of_In, filter_In in Hin.
    destruct Hin as [Hin Hkeep].
    apply list_elem_of_In, elem_of_map_to_list in Hin. by exists id, t.
  - intros (id & t & Hst & Hkeep & ->). exists (id, t). split; [done|].
    apply list_elem_of_In, filter_In. split; [|done].
    by apply list_elem_of_In, elem_of_map_to_list.
Qed.

(** X1.  GET /trips/owned answers 200 with exactly the stored trips whose
    owner is the requester, each with its id, and leaves the store as it
    was. *)
Theorem get_trips_owned_exact (env : Env) (req : Request) (st : Store) :
  read_fault env = None →
  ∃ trips,
    get_trips_owned env req st
    = (send_json 200 (JObj {[ "trips" := JArr trips ]}), st) ∧
    ∀ v, v ∈ trips ↔
         ∃ id t, st !! id = Some t ∧ owner_of t = Some (user req) ∧
                 v = toObject id t.
Proof.
  intros Hr.
  destruct (find_elements env
              (fun t => bool_decide (owner_of t = Some (user req))) st Hr)
    as (l & Hfind & Hl).
  exists l. split.
  - unfold get_trips_owned, catch_next, bind, ret. by rewrite Hfind.
  - intros v. rewrite Hl. split.
    + intros (id & t & Hst & Hown & ->). apply bool_decide_eq_true in Hown.
      by exists id, t.
    + intros (id & t & Hst & Hown & ->). exists id, t.
      by rewrite bool_decide_eq_true.
Qed.

Lemma get_trips_owned_exact_witness :
  ∃ trips,
    get_trips_owned (quiet "" 2) (reqB ∅) store1
    = (send_json 200 (JObj {[ "trips" := JArr trips ]}), store1) ∧
    ∀ v, v ∈ trips ↔
         ∃ id t, store1 !! id = Some t ∧ owner_of t = Some "B" ∧
                 v = toObject id t.
Proof.
  apply (get_trips_owned_exact (quiet "" 2) (reqB ∅) store1). reflexivity.
Defined.

(** X2.  GET /trips and GET /trips/openall answer 200 with every stored trip,
    as many entries as the store has documents, whoever asks, and leave the
    store as it was. *)
Theorem get_trips_lists_all (env : Env) (req : Request) (st : Store) :
  read_fault env = None →
  ∃ trips,
    (∀ req', get_trips env req' st
             = (send_json 200 (JObj {[ "trips" := JArr trips ]}), st)) ∧
    length trips = size st ∧
    ∀ v, v ∈ trips ↔ ∃ id t, st !! id = Some t ∧ v = toObject id t.
Proof.
  intros Hr.
  destruct (find_elements env (fun _ => true) st Hr) as (l & Hfind & Hl).
  exists l. split; [|split].
  - intros req'. unfold get_trips, catch_next, bind, ret. by rewrite Hfind.
  - revert Hfind. unfold find. rewrite Hr. intros [= <-].
    rewrite length_fmap, <- length_map_to_list.
    generalize (map_to_list st). intros m.
    induction m as [|kv m IH]; simpl; [done|]. by rewrite IH.
  - intros v. rewrite Hl. split.
    + intros (id & t & Hst & _ & ->). by exists id, t.
    + intros (id & t & Hst & ->). by exists id, t.
Qed.

Lemma get_trips_lists_all_witness :
  ∃ trips,
    (∀ req', get_trips (quiet "" 2) req' store1
             = (send_json 200 (JObj {[ "trips" := JArr trips ]}), store1)) ∧
    length trips = size store1 ∧
    ∀ v, v ∈ trips ↔ ∃ id t, store1 !! id = Some t ∧ v = toObject id t.
Proof.
  apply (get_trips_lists_all (quiet "" 2) (reqB ∅) store1). reflexivity.
Defined.

(** X3.  GET /trips/:id shows a stored trip to every requester, owner or
    not: the answer is 200 with the document under that id, or 404 when
    there is none, it is the same for every user and body, and the store is
    left as it was. *)
Theorem get_trip_shows_any_trip (env : Env) (req : Request) (st : Store) :
  read_fault env = None →
  get_trip env req st
  = (match st !! params_id req with
     | Some t =>
         send_json 200 (JObj {[ "trip" := toObject (params_id req) t ]})
     | None => error_response NotFoundError
     end, st) ∧
  ∀ u b, get_trip env (mkRequest u (params_id req) b) st = get_trip env req st.
Proof.
  intros Hr.
  assert (Hrun : ∀ r, get_trip env r st
    = (match st !! params_id r with
       | Some t => send_json 200 (JObj {[ "trip" := toObject (params_id r) t ]})
       | None => error_response NotFoundError
       end, st)).
  { intros r. unfold get_trip, catch_next, bind, ret, lift, findById.
    rewrite Hr. by destruct (st !! params_id r). }
  split; [apply Hrun|]. intros u b. by rewrite !Hrun.
Qed.

Lemma get_trip_shows_any_trip_witness :
  get_trip (quiet "" 2) (reqB ∅) store1
  = (send_json 200 (JObj {[ "trip" := toObject "t1" paris_stored ]}), store1).
Proof.
  destruct (get_trip_shows_any_trip (quiet "" 2) (reqB ∅) store1) as [H _].
  - reflexivity.
  - rewrite H. vm_compute. reflexivity.
Defined.

(** ** Join and leave: what they touch *)

Lemma addToSet_lookup_ne (p uid : string) (t t' : Trip) (k : string) :
  addToSet p uid t = Ok t' → k ≠ p → t' !! k = t !! k.
Proof.
  unfold addToSet. intros H Hk.
  destruct (t !! p) as [[| | | |l|]|]; try done.
  - destruct (existsb (is_id uid) l); injection H as <-; [done|].
    by rewrite lookup_insert_ne.
  - injection H as <-. by rewrite lookup_insert_ne.
Qed.

Lemma pull_lookup_ne (p uid : string) (t t' : Trip) (k : string) :
  pull p uid t = Ok t' → k ≠ p → t' !! k = t !! k.
Proof.
  unfold pull. intros H Hk.
  destruct (t !! p) as [[| | | |l|]|]; try done.
  - injection H as <-. by rewrite lookup_insert_ne.
  - by injection H as <-.
Qed.

Lemma count_id_snoc_ne (uid uid' : string) (l : list JValue) :
  uid' ≠ uid → count_id uid' (l ++ [JStr uid]) = count_id uid' l.
Proof.
  intros Hne. unfold count_id. rewrite List.filter_app, length_app. simpl.
  rewrite bool_decide_eq_false_2 by done. simpl. lia.
Qed.

Lemma count_id_pulled_ne (uid uid' : string) (l : list JValue) :
  uid' ≠ uid →
  count_id uid' (List.filter (fun v => negb (is_id uid v)) l) = count_id uid' l.
Proof.
  intros Hne. unfold count_id. induction l as [|v l IH]; simpl; [done|].
  destruct (is_id uid v) eqn:Hv; simpl.
  - destruct v; try done. simpl in Hv. apply bool_decide_eq_true in Hv.
    subst. simpl. by rewrite bool_decide_eq_false_2.
  - destruct (is_id uid' v); simpl; by rewrite IH.
Qed.

Lemma addToSet_count_ne (uid uid' : string) (t t' : Trip) :
  addToSet "users" uid t = Ok t' → uid' ≠ uid →
  count_id uid' (default [] (users_of t'))
  = count_id uid' (default [] (users_of t)).
Proof.
  unfold addToSet, users_of. intros H Hne.
  destruct (t !! "users") as [[| | | |l|]|] eqn:Hu; try done.
  - destruct (existsb (is_id uid) l); injection H as <-.
    + by rewrite Hu.
    + rewrite lookup_insert_eq. simpl. by apply count_id_snoc_ne.
  - injection H as <-. rewrite lookup_insert_eq. simpl.
    unfold count_id. simpl. by rewrite bool_decide_eq_false_2.
Qed.

Lemma pull_count_ne (uid uid' : string) (t t' : Trip) :
  pull "users" uid t = Ok t' → uid' ≠ uid →
  count_id uid' (default [] (users_of t'))
  = count_id uid' (default [] (users_of t)).
Proof.
  unfold pull, users_of. intros H Hne.
  destruct (t !! "users") as [[| | | |l|]|] eqn:Hu; try done.
  - injection H as <-. rewrite lookup_insert_eq. simpl.
    by apply count_id_pulled_ne.
  - injection H as <-. by rewrite Hu.
Qed.

(** The store after [findByIdAndUpdate], in every outcome. *)
Lemma findByIdAndUpdate_store (env : Env) (id : string)
    (update : Trip → Result Trip) (st : Store) :
  (findByIdAndUpdate env id update st).2 = st ∨
  ∃ t t', st !! id = Some t ∧ update t = Ok t' ∧
          (findByIdAndUpdate env id update st).2 = <[id := touch env t']> st.
Proof.
  unfold findByIdAndUpdate. destruct (write_fault env); [by left|].
  destruct (st !! id) as [t|] eqn:Ht; [|by left].
  destruct (update t) as [t'|e] eqn:Hu; [|by left].
  right. by exists t, t'.
Qed.

Lemma patch_rsvp_store (env : Env) (req : Request) (st : Store) :
  (patch_rsvp env req st).2
  = (findByIdAndUpdate env (params_id req) (addToSet "users" (user req)) st).2.
Proof.
  unfold patch_rsvp, catch_next, bind, ret, lift.
  destruct (findByIdAndUpdate _ _ _ _) as [[[t|]|e] st']; done.
Qed.

Lemma patch_unrsvp_store (env : Env) (req : Request) (st : Store) :
  (patch_unrsvp env req st).2
  = (findByIdAndUpdate env (params_id req) (pull "users" (user req)) st).2.
Proof.
  unfold patch_unrsvp, catch_next, bind, ret, lift.
  destruct (findByIdAndUpdate _ _ _ _) as [[[t|]|e] st']; done.
Qed.

(** X4.  A join or a leave on an id that matches no trip is answered 404, and
    the store is left as it was: no trip is made for the id. *)
Theorem rsvp_unknown_trip (env : Env) (req : Request) (st : Store) :
  write_fault env = None →
  st !! params_id req = None →
  patch_rsvp env req st = (error_response NotFoundError, st) ∧
  patch_unrsvp env req st = (error_response NotFoundError, st).
Proof.
  intros Hw Hst. by rewrite patch_rsvp_eq, patch_unrsvp_eq, Hw, Hst.
Qed.

Lemma rsvp_unknown_trip_witness :
  patch_rsvp (quiet "" 2) (mkRequest "B" "nope" ∅) store1
  = (error_response NotFoundError, store1) ∧
  patch_unrsvp (quiet "" 2) (mkRequest "B" "nope" ∅) store1
  = (error_response NotFoundError, store1).
Proof.
  apply (rsvp_unknown_trip (quiet "" 2) (mkRequest "B" "nope" ∅) store1).
  - reflexivity.
  - vm_compute. reflexivity.
Defined.

(** X5.  A join or a leave, in every outcome, changes no document but its
    target, and in the target no property but [users] and [updatedAt]: the
    owner and the fields of the trip stay. *)
Theorem rsvp_touches_users_only
    (env : Env) (req : Request) (st : Store) (id k : string) :
  id ≠ params_id req ∨ (k ≠ "users" ∧ k ≠ "updatedAt") →
  field id k (patch_rsvp env req st).2 = field id k st ∧
  field id k (patch_unrsvp env req st).2 = field id k st.
Proof.
  intros Hframe. unfold field. rewrite patch_rsvp_store, patch_unrsvp_store.
  split.
  - destruct (findByIdAndUpdate_store env (params_id req)
                (addToSet "users" (user req)) st)
      as [-> | (t & t' & Ht & Hu & ->)]; [done|].
    rewrite lookup_insert. case_decide as Hid; [|done]. subst id.
    destruct Hframe as [? | [Hk1 Hk2]]; [done|]. rewrite Ht. simpl.
    rewrite touch_lookup_ne by done. by eapply addToSet_lookup_ne.
  - destruct (findByIdAndUpdate_store env (params_id req)
                (pull "users" (user req)) st)
      as [-> | (t & t' & Ht & Hu & ->)]; [done|].
    rewrite lookup_insert. case_decide as Hid; [|done]. subst id.
    destruct Hframe as [? | [Hk1 Hk2]]; [done|]. rewrite Ht. simpl.
    rewrite touch_lookup_ne by done. by eapply pull_lookup_ne.
Qed.

Lemma rsvp_touches_users_only_witness :
  field "t1" "owner" (patch_rsvp (quiet "" 2) (reqB ∅) store1).2
  = field "t1" "owner" store1 ∧
  field "t1" "owner" (patch_unrsvp (quiet "" 2) (reqB ∅) store1).2
  = field "t1" "owner" store1.
Proof.
  apply (rsvp_touches_users_only (quiet "" 2) (reqB ∅) store1 "t1" "owner").
  right. split; discriminate.
Defined.

(** X6.  A join or a leave, in every outcome, leaves the attendance of every
    user other than the requester as it was, in every trip: the only id a
    requester can add or remove is their own. *)
Theorem rsvp_only_own_id
    (env : Env) (req : Request) (st : Store) (uid id : string) :
  uid ≠ user req →
  attendance uid id (patch_rsvp env req st).2 = attendance uid id st ∧
  attendance uid id (patch_unrsvp env req st).2 = attendance uid id st.
Proof.
  intros Hne. unfold attendance. rewrite patch_rsvp_store, patch_unrsvp_store.
  split.
  - destruct (findByIdAndUpdate_store env (params_id req)
                (addToSet "users" (user req)) st)
      as [-> | (t & t' & Ht & Hu & ->)]; [done|].
    rewrite lookup_insert. case_decide as Hid; [|done]. subst id.
    rewrite Ht. simpl. rewrite users_of_touch. by eapply addToSet_count_ne.
  - destruct (findByIdAndUpdate_store env (params_id req)
                (pull "users" (user req)) st)
      as [-> | (t & t' & Ht & Hu & ->)]; [done|].
    rewrite lookup_insert. case_decide as Hid; [|done]. subst id.
    rewrite Ht. simpl. rewrite users_of_touch. by eapply pull_count_ne.
Qed.

Lemma rsvp_only_own_id_witness :
  attendance "B" "t1" (patch_rsvp (quiet "" 4) (reqA ∅) store2).2
  = attendance "B" "t1" store2 ∧
  attendance "B" "t1" (patch_unrsvp (quiet "" 4) (reqA ∅) store2).2
  = attendance "B" "t1" store2.
Proof.
  apply (rsvp_only_own_id (quiet "" 4) (reqA ∅) store2 "B" "t1"). discriminate.
Defined.

Lemma existsb_is_id_true (uid : string) (l : list JValue) :
  existsb (is_id uid) l = true → (1 ≤ count_id uid l)%nat.
Proof.
  intros Hex. destruct (count_id uid l) eqn:Hc; [|lia].
  apply existsb_is_id_false in Hc. congruence.
Qed.

(** X7.  On a stored trip with an array of attendees a join is answered 204
    for every requester, owner of the trip or not; afterwards the requester
    is among the attendees, once if they were not there before and as often
    as before otherwise. *)
Theorem rsvp_join_adds
    (env : Env) (req : Request) (st : Store) (t : Trip) (l : list JValue) :
  write_fault env = None →
  st !! params_id req = Some t →
  users_of t = Some l →
  (patch_rsvp env req st).1 = sendStatus 204 ∧
  attendance (user req) (params_id req) (patch_rsvp env req st).2
  = Nat.max 1 (count_id (user req) l).
Proof.
  intros Hw Ht Hl.
  destruct (patch_rsvp_once env req st t l Hw Ht Hl) as (t' & -> & Hl').
  split; [done|]. unfold attendance. simpl.
  rewrite lookup_insert_eq. simpl. rewrite Hl'. simpl.
  destruct (existsb (is_id (user req)) l) eqn:Hex.
  - apply existsb_is_id_true in Hex. lia.
  - apply existsb_is_id_false in Hex. rewrite count_id_snoc, Hex. done.
Qed.

Lemma rsvp_join_adds_witness :
  (patch_rsvp (quiet "" 2) (reqB ∅) store1).1 = sendStatus 204 ∧
  attendance "B" "t1" (patch_rsvp (quiet "" 2) (reqB ∅) store1).2
  = Nat.max 1 (count_id "B" []).
Proof.
  apply (rsvp_join_adds (quiet "" 2) (reqB ∅) store1 paris_stored []).
  - reflexivity.
  - vm_compute. reflexivity.
  - vm_compute. reflexivity.
Defined.

(** X8.  On a stored trip with an array of attendees a leave is answered 204
    for every requester, and afterwards no occurrence of the requester's id
    is left, however many there were. *)
Theorem unrsvp_leave_removes
    (env : Env) (req : Request) (st : Store) (t : Trip) (l : list JValue) :
  write_fault env = None →
  st !! params_id req = Some t →
  users_of t = Some l →
  (patch_unrsvp env req st).1 = sendStatus 204 ∧
  attendance (user req) (params_id req) (patch_unrsvp env req st).2 = 0%nat.
Proof.
  intros Hw Ht Hl. rewrite patch_unrsvp_eq, Hw, Ht. unfold pull.
  rewrite (users_of_Some _ _ Hl). split; [done|].
  unfold attendance. simpl. rewrite lookup_insert_eq. simpl.
  rewrite users_of_touch. unfold users_of. rewrite lookup_insert_eq. simpl.
  apply count_id_pulled.
Qed.

Lemma unrsvp_leave_removes_witness :
  (patch_unrsvp (quiet "" 6) (reqB ∅) store3).1 = sendStatus 204 ∧
  attendance "B" "t1" (patch_unrsvp (quiet "" 6) (reqB ∅) store3).2 = 0%nat.
Proof.
  apply (unrsvp_leave_removes (quiet "" 6) (reqB ∅) store3
           (touch (quiet "" 3) (touch (quiet "" 2)
              (<["users" := JArr [JStr "B"]]> paris_stored))) [JStr "B"]).
  - reflexivity.
  - vm_compute. reflexivity.
  - vm_compute. reflexivity.
Defined.

(** X9.  A join followed by a leave of a requester who was not among the
    attendees gives back the attendees there were, in their order. *)
Theorem rsvp_then_unrsvp
    (env1 env2 : Env) (req : Request) (st : Store) (t : Trip) (l : list JValue) :
  write_fault env1 = None →
  write_fault env2 = None →
  st !! params_id req = Some t →
  users_of t = Some l →
  count_id (user req) l = 0%nat →
  (patch_unrsvp env2 req (patch_rsvp env1 req st).2).1 = sendStatus 204 ∧
  (patch_unrsvp env2 req (patch_rsvp env1 req st).2).2
    !! params_id req ≫= users_of = Some l.
Proof.
  intros Hw1 Hw2 Ht Hl Hcount.
  destruct (patch_rsvp_once env1 req st t l Hw1 Ht Hl) as (t' & -> & Hl').
  apply existsb_is_id_false in Hcount as Hex. rewrite Hex in Hl'. simpl.
  rewrite patch_unrsvp_eq, Hw2, lookup_insert_eq. unfold pull.
  rewrite (users_of_Some _ _ Hl'). split; [done|]. simpl.
  rewrite lookup_insert_eq. simpl. rewrite users_of_touch. unfold users_of.
  rewrite lookup_insert_eq. f_equal.
  rewrite List.filter_app. simpl. rewrite bool_decide_eq_true_2 by done.
  simpl. rewrite app_nil_r. by apply filter_other_ids.
Qed.

Lemma rsvp_then_unrsvp_witness :
  (patch_unrsvp (quiet "" 3) (reqB ∅) (patch_rsvp (quiet "" 2) (reqB ∅) store1).2).1
  = sendStatus 204 ∧
  (patch_unrsvp (quiet "" 3) (reqB ∅) (patch_rsvp (quiet "" 2) (reqB ∅) store1).2).2
    !! "t1" ≫= users_of = Some [].
Proof.
  apply (rsvp_then_unrsvp (quiet "" 2) (quiet "" 3) (reqB ∅) store1
           paris_stored []).
  - reflexivity.
  - reflexivity.
  - vm_compute. reflexivity.
  - vm_compute. reflexivity.
  - reflexivity.
Defined.

(** ** Delete *)

(** X10.  When the owner deletes a stored trip and the store accepts the
    deletion, the answer is 204, the trip is gone (a later GET of the id is
    answered 404) and every other document is as it was. *)
Theorem delete_trip_removes
    (env env' : Env) (req req' : Request) (st : Store) (t : Trip) :
  read_fault env = None →
  write_fault env = None →
  read_fault env' = None →
  st !! params_id req = Some t →
  owner_of t = Some (user req) →
  params_id req' = params_id req →
  delete_trip env req st = (sendStatus 204, delete (params_id req) st) ∧
  (get_trip env' req' (delete_trip env req st).2).1
  = error_response NotFoundError ∧
  ∀ id, id ≠ params_id req → (delete_trip env req st).2 !! id = st !! id.
Proof.
  intros Hr Hw Hr' Ht Ho Hid.
  assert (Hrun : delete_trip env req st
                 = (sendStatus 204, delete (params_id req) st)).
  { rewrite delete_trip_eq, Hr, Ht.
    destruct (decide (owner_of t = Some (user req))); [|done].
    unfold deleteOne. by rewrite Hw. }
  rewrite Hrun. split; [done|]. split.
  - unfold get_trip, catch_next, bind, ret, lift, findById. rewrite Hr'. simpl.
    by rewrite Hid, lookup_delete_eq.
  - intros id Hne. simpl. by rewrite lookup_delete_ne.
Qed.

Lemma delete_trip_removes_witness :
  delete_trip (quiet "" 7) (reqA ∅) store1 = (sendStatus 204, delete "t1" store1) ∧
  (get_trip (quiet "" 8) (reqB ∅) (delete_trip (quiet "" 7) (reqA ∅) store1).2).1
  = error_response NotFoundError ∧
  ∀ id, id ≠ "t1" → (delete_trip (quiet "" 7) (reqA ∅) store1).2 !! id = store1 !! id.
Proof.
  apply (delete_trip_removes (quiet "" 7) (quiet "" 8) (reqA ∅) (reqB ∅) store1
           paris_stored).
  - reflexivity.
  - reflexivity.
  - reflexivity.
  - vm_compute. reflexivity.
  - vm_compute. reflexivity.
  - reflexivity.
Defined.

(** ** Who can change what *)

(** X11.  An update or a delete that changes the store comes from the owner
    of the target: if the store after PATCH /trips/:id or DELETE /trips/:id
    differs from the store before, the target was stored and its owner is
    the requester. *)
Theorem only_owner_changes (env : Env) (req : Request) (st : Store) :
  (patch_trip env req st).2 ≠ st ∨ (delete_trip env req st).2 ≠ st →
  ∃ t, st !! params_id req = Some t ∧ owner_of t = Some (user req).
Proof.
  intros [H | H].
  - destruct (patch_trip_store env req st) as [Hst | (t & f & Ht & Ho & _)];
      [done|]. by exists t.
  - revert H. rewrite delete_trip_eq.
    destruct (read_fault env); [done|].
    destruct (st !! params_id req) as [t|]; [|done].
    destruct (decide (owner_of t = Some (user req))) as [Ho|Ho]; [|done].
    intros _. by exists t.
Qed.

Lemma only_owner_changes_witness :
  ∃ t, store1 !! "t1" = Some t ∧ owner_of t = Some "A".
Proof.
  apply (only_owner_changes (quiet "" 7) (reqA ∅) store1).
  right. vm_compute. discriminate.
Defined.

(** ** Which documents there are *)

(** X13.  An update, a join and a leave neither make nor remove a document:
    in every outcome the ids stored after the request are the ids stored
    before.  A delete makes none. *)
Theorem updates_keep_the_ids (env : Env) (req : Request) (st : Store) (id : string) :
  (is_Some ((patch_trip env req st).2 !! id) ↔ is_Some (st !! id)) ∧
  (is_Some ((patch_rsvp env req st).2 !! id) ↔ is_Some (st !! id)) ∧
  (is_Some ((patch_unrsvp env req st).2 !! id) ↔ is_Some (st !! id)) ∧
  (is_Some ((delete_trip env req st).2 !! id) → is_Some (st !! id)).
Proof.
  assert (Hupd : ∀ update,
    is_Some ((findByIdAndUpdate env (params_id req) update st).2 !! id)
    ↔ is_Some (st !! id)).
  { intros update.
    destruct (findByIdAndUpdate_store env (params_id req) update st)
      as [-> | (t & t' & Ht & _ & ->)]; [done|].
    rewrite lookup_insert_is_Some'. split; [|by right].
    intros [<- | H]; [by rewrite Ht | done]. }
  assert (Hpatch : is_Some ((patch_trip env req st).2 !! id)
                   ↔ is_Some (st !! id)).
  { destruct (patch_trip_store env req st) as [-> | (t & f & _ & _ & ->)];
      [done|].
    by rewrite lookup_alter_is_Some. }
  split; [exact Hpatch|]. split; [|split].
  - rewrite patch_rsvp_store. apply Hupd.
  - rewrite patch_unrsvp_store. apply Hupd.
  - rewrite delete_trip_eq. destruct (read_fault env); [done|].
    destruct (st !! params_id req) as [t|]; [|done].
    destruct (decide (owner_of t = Some (user req))); [|done].
    unfold deleteOne. destruct (write_fault env); [done|]. simpl.
    rewrite lookup_delete_is_Some. by intros [_ ?].
Qed.

(** X14.  A create changes and removes no stored trip: in every outcome
    every document stored before the request is stored unchanged after
    it, also when the store hands out an id that is taken. *)
Theorem post_trips_keeps_stored
    (env : Env) (req : Request) (st : Store) (id : string) (t : Trip) :
  st !! id = Some t →
  (post_trips env req st).2 !! id = Some t.
Proof.
  intros Ht. rewrite post_trips_eq.
  destruct (set_trip_owner _ _) as [b|e]; [|done].
  pose proof (create_keeps env (body_trip b) st id t Ht) as Hkeep.
  by destruct (create env (body_trip b) st) as [[[i d|cs]|e] st'].
Qed.

Lemma post_trips_keeps_stored_witness :
  (post_trips (quiet "t1" 9) (reqB {[ "trip" := JObj ∅ ]}) store1).2 !! "t1"
  = Some paris_stored.
Proof.
  apply (post_trips_keeps_stored (quiet "t1" 9) (reqB {[ "trip" := JObj ∅ ]})
           store1 "t1" paris_stored).
  vm_compute. reflexivity.
Defined.

(** ** The router *)

Lemma get_trips_owned_store (env : Env) (req : Request) (st : Store) :
  (get_trips_owned env req st).2 = st.
Proof.
  unfold get_trips_owned, catch_next, bind, ret, find.
  by destruct (read_fault env).
Qed.

Lemma get_trips_store (env : Env) (req : Request) (st : Store) :
  (get_trips env req st).2 = st.
Proof.
  unfold get_trips, catch_next, bind, ret, find. by destruct (read_fault env).
Qed.

Lemma get_trip_store (env : Env) (req : Request) (st : Store) :
  (get_trip env req st).2 = st.
Proof.
  unfold get_trip, catch_next, bind, ret, lift, findById.
  destruct (read_fault env); [done|]. by destruct (st !! params_id req).
Qed.

Lemma requireToken_none (r : HttpRequest) (id : string)
    (handler : Request → Store → Response * Store) (st : Store) :
  bearer r = None → requireToken r id handler st = (unauthorized, st).
Proof. intros Hb. unfold requireToken. by rewrite Hb. Qed.

(** X16.  A request without a valid token never changes the store, and it is
    answered 401 on every route but GET /trips/openall. *)
Theorem no_token_no_change
    (env : Env) (r : HttpRequest) (st : Store)
    (h : Store → Response * Store) :
  bearer r = None →
  router env r = Some h →
  (h st).2 = st ∧
  ((h st).1 = unauthorized ∨
   method r = GET ∧ ∃ a b, path r = [a; b] ∧ lower b = "openall").
Proof.
  intros Hb. unfold router.
  destruct (method r), (path r) as [|a [|b [|c [|d p]]]]; try done;
    repeat (case_match; try done);
    intros [= <-];
    rewrite ?requireToken_none by done;
    try (split; [done | by left]).
  split; [apply get_trips_store|]. right. split; [done|].
  exists a, b. split; [done|]. unfold seg in *. by case_bool_decide.
Qed.

Lemma no_token_no_change_witness :
  (requireToken (mkHttp DELETE ["trips"; "t1"] None ∅) "t1"
     (delete_trip (quiet "" 7)) store1).2 = store1 ∧
  ((requireToken (mkHttp DELETE ["trips"; "t1"] None ∅) "t1"
      (delete_trip (quiet "" 7)) store1).1 = unauthorized ∨
   DELETE = GET ∧ ∃ a b, ["trips"; "t1"] = [a; b] ∧ lower b = "openall").
Proof.
  apply (no_token_no_change (quiet "" 7)
           (mkHttp DELETE ["trips"; "t1"] None ∅) store1).
  - reflexivity.
  - reflexivity.
Defined.

(** X17.  No GET request changes the store, with or without a token. *)
Theorem get_never_writes
    (env : Env) (r : HttpRequest) (st : Store)
    (h : Store → Response * Store) :
  method r = GET →
  router env r = Some h →
  (h st).2 = st.
Proof.
  intros Hm. unfold router. rewrite Hm.
  destruct (path r) as [|a [|b [|c p]]]; try done;
    repeat (case_match; try done);
    intros [= <-]; unfold requireToken;
    try (destruct (bearer r); [|done]);
    auto using get_trips_owned_store, get_trips_store, get_trip_store.
Qed.

Lemma get_never_writes_witness :
  (requireToken (mkHttp GET ["trips"; "t1"] (Some "B") ∅) "t1"
     (get_trip (quiet "" 7)) store1).2 = store1.
Proof.
  apply (get_never_writes (quiet "" 7)
           (mkHttp GET ["trips"; "t1"] (Some "B") ∅) store1).
  - reflexivity.
  - reflexivity.
Defined.

(** X18.  The listings are registered before GET /trips/:id: a GET whose
    second segment is [owned] or [openall], in any case of letters, is
    answered with a list of trips and never looked up as the id of a
    trip. *)
Theorem listings_before_show
    (env : Env) (r : HttpRequest) (st : Store) (a b u : string) :
  method r = GET →
  path r = [a; b] →
  seg "trips" a = true →
  seg "owned" b = true ∨ seg "openall" b = true →
  bearer r = Some u →
  read_fault env = None →
  ∃ h trips,
    router env r = Some h ∧
    h st = (send_json 200 (JObj {[ "trips" := JArr trips ]}), st).
Proof.
  intros Hm Hp Ha Hb Hu Hr. unfold router. rewrite Hm, Hp, Ha.
  destruct (seg "owned" b) eqn:Howned.
  - destruct (find_elements env
                (fun t => bool_decide (owner_of t = Some u)) st Hr)
      as (trips & Hfind & _).
    eexists _, trips. split; [done|]. unfold requireToken. rewrite Hu.
    unfold get_trips_owned, catch_next, bind, ret. simpl. by rewrite Hfind.
  - destruct Hb as [? | ->]; [done|].
    destruct (find_elements env (fun _ => true) st Hr) as (trips & Hfind & _).
    eexists _, trips. split; [done|].
    unfold get_trips, catch_next, bind, ret. by rewrite Hfind.
Qed.

Lemma listings_before_show_witness :
  ∃ h trips,
    router (quiet "" 7) (mkHttp GET ["trips"; "Owned"] (Some "A") ∅) = Some h ∧
    h store1 = (send_json 200 (JObj {[ "trips" := JArr trips ]}), store1).
Proof.
  apply (listings_before_show (quiet "" 7)
           (mkHttp GET ["trips"; "Owned"] (Some "A") ∅) store1
           "trips" "Owned" "A").
  - reflexivity.
  - reflexivity.
  - reflexivity.
  - left. reflexivity.
  - reflexivity.
  - reflexivity.
Defined.

(** X19.  Through the router the owner of a new trip is the user of the
    bearer token: every POST answered 201 has stored, under the new id, a
    trip owned by that user, whatever the body says. *)
Theorem router_create_owner
    (env : Env) (r : HttpRequest) (st : Store) (u : string)
    (h : Store → Response * Store) :
  method r = POST →
  bearer r = Some u →
  router env r = Some h →
  status (h st).1 = 201 →
  ∃ doc, (h st).2 = <[new_id env := doc]> st ∧ owner_of doc = Some u.
Proof.
  intros Hm Hu. unfold router. rewrite Hm.
  destruct (path r) as [|a [|b p]]; try done.
  destruct (seg "trips" a); [|done]. intros [= <-].
  unfold requireToken. rewrite Hu. intros H201.
  by apply (post_trips_created_inv env (mkRequest u "" (payload r)) st).
Qed.

Lemma router_create_owner_witness :
  ∃ doc,
    (requireToken
       (mkHttp POST ["trips"] (Some "B") {[ "trip" := JObj {[ "owner" := JStr "A" ]} ]})
       "" (post_trips (quiet "t2" 9)) store1).2 = <["t2" := doc]> store1 ∧
    owner_of doc = Some "B".
Proof.
  apply (router_create_owner (quiet "t2" 9)
           (mkHttp POST ["trips"] (Some "B") {[ "trip" := JObj {[ "owner" := JStr "A" ]} ]})
           store1 "B").
  - reflexivity.
  - reflexivity.
  - reflexivity.
  - vm_compute. reflexivity.
Defined.
